(** * Fund Score: the sampling session, its scoring functions, the consumer
      callback and the presentation animator

    A shallow embedding of [WebcamComponent] and [App] (src/App.tsx) and of
    [ScoreDisplay] (the score display component), followed by the properties
    established about them.

    Numbers.  JavaScript numbers are binary64 floating-point numbers.
    - [Binary64] embeds the raw score with them (Rocq's primitive floats,
      each operation rounded as the code performs it), with [Math.sin], a
      builtin whose code is not part of the repository, as a parameter.
      It decides what depends on the rounding of intermediate sums.
    - [WebcamComponent] idealises a number as a real ([R]) and a rounded
      number as an integer ([Z]); its statements are ranges, orders and
      margins that the rounding of intermediate results does not reach.
    - [ScoreDisplay], whose arithmetic is only [+ - * /] on integers and
      frame timestamps, idealises a number as a rational ([Q]), which keeps
      the model executable.
    - [Date.now()] is an integer number of milliseconds ([Z]).

    Closures.  In a React function component a state variable is a [const]
    of one invocation (one render) of the component function:
    [const [analysisStartTime, setAnalysisStartTime] = useState(null)].
    A callback created during a render reads the value the variable had in
    that render, whatever the setter is called with later; the setter only
    changes what the next render will read.  Refs ([useRef]) are shared
    mutable cells and are read afresh.  The embedding keeps the three apart:
    the values a render read and its closures keep, the values written by
    the setters for the next render (both of type [State]) and the refs
    ([Refs]). *)

From Stdlib Require Import ZArith QArith Qround Reals Lra Lia List String Bool.
From Stdlib Require Lqa Floats Uint63.
Import ListNotations.

(** ** Math.round, Math.max, Math.min *)

(** [Math.round] on reals: the nearest integer, halves towards +infinity. *)
Definition Math_round (x : R) : Z := Int_part (x + / 2)%R.

(** [Math.max(lo, Math.min(hi, x))]. *)
Definition clamp (lo hi x : R) : R := Rmax lo (Rmin hi x).

(** [Math.round] on rationals. *)
Definition Math_roundQ (q : Q) : Z := Qfloor (q + (1 # 2))%Q.

(** [Math.min(1, q)] on rationals. *)
Definition Math_min1 (q : Q) : Q := if Qle_bool 1 q then 1%Q else q.

(** ** WebcamComponent *)

Module WebcamComponent.

(** [faceapi.FaceExpressions]: one probability per expression. *)
Record FaceExpressions : Type := {
  neutral : R;
  happy : R;
  sad : R;
  angry : R;
  fearful : R;
  disgusted : R;
  surprised : R
}.

(** [FaceDetectionResult]: [score] is [detection.score], the confidence; the
    bounding box is only drawn and is left out. *)
Record FaceDetectionResult : Type := {
  score : R;
  expressions : FaceExpressions
}.

(** [FundabilityAttributes]. *)
Record FundabilityAttributes : Type := {
  charisma : Z;
  dumbness : Z;
  single : Z
}.

Definition ANALYSIS_DURATION_MS : Z := 5000.

(** One row of [feedbackMessages]. *)
Record FeedbackBand : Type := {
  minScore : Z;
  maxScore : Z;
  message : string
}.

Definition feedbackMessages : list FeedbackBand := [
  {| minScore := 0; maxScore := 20;
     message := "Even your screen protector is crying!" |};
  {| minScore := 21; maxScore := 40;
     message := "VCs might fund you... if you wore a paper bag." |};
  {| minScore := 41; maxScore := 60;
     message := "Middle of the pack. Try adding glasses?" |};
  {| minScore := 61; maxScore := 80;
     message := "Not bad! You could raise a decent seed round." |};
  {| minScore := 81; maxScore := 95;
     message := "Unicorn material! Silicon Valley is calling!" |};
  {| minScore := 96; maxScore := 100;
     message := "Are you Elon Musk's secret twin?!" |}
]%Z.

Section Scoring.
Local Open Scope R_scope.

(** [calculateRawFundabilityScore].  The destructuring defaults ([happy = 0],
    ...) only apply to a missing field; every field is present here. *)
Definition calculateRawFundabilityScore (d : FaceDetectionResult) : Z :=
  let confidence := score d in
  let e := expressions d in
  let baseScore := confidence * 50 in
  let expressionBonus := (happy e * 30) + (neutral e * 15) + (surprised e * 10) in
  let expressionPenalty := (sad e * 20) + (angry e * 25) in
  let seedValue := (confidence * 100) + (happy e * 50) + (neutral e * 25) in
  let deterministicFactor := sin seedValue * 5 in
  let totalScore :=
    baseScore + expressionBonus - expressionPenalty + deterministicFactor in
  Math_round (Rmax 0 (Rmin 100 totalScore)).

(** [calculateAttributes]. *)
Definition calculateAttributes (d : FaceDetectionResult) : FundabilityAttributes :=
  let confidence := score d in
  let e := expressions d in
  let charismaBase := Rmax 0 (Rmin 100
    (confidence * 40 + happy e * 40 + surprised e * 20 +
     sin (confidence * 50) * 10)) in
  let dumbBase := Rmax 0 (Rmin 100
    ((1 - neutral e) * 40 + surprised e * 30 + disgusted e * 30 +
     cos (confidence * 70) * 15)) in
  let singleBase := Rmax 0 (Rmin 100
    (sad e * 30 + neutral e * 25 + angry e * 25 + (1 - happy e) * 20 +
     sin (confidence * 90) * 10)) in
  {| charisma := Math_round charismaBase;
     dumbness := Math_round dumbBase;
     single := Math_round singleBase |}.

(** [calculateDeterministicAttributeTargets]. *)
Definition calculateDeterministicAttributeTargets
    (initialAttrs : FundabilityAttributes) (d : FaceDetectionResult)
    : FundabilityAttributes :=
  let confidence := score d in
  let happy := happy (expressions d) in
  let charismaShift := sin (confidence * 100 + happy * 60) * 15 in
  let dumbShift := sin (confidence * 120 + happy * 40) * 12 in
  let singleShift := sin (confidence * 140 + happy * 20) * 18 in
  let charismaTarget :=
    Rmax 10 (Rmin 95 (IZR (charisma initialAttrs) + charismaShift)) in
  let dumbTarget :=
    Rmax 5 (Rmin 90 (IZR (dumbness initialAttrs) + dumbShift)) in
  let singleTarget :=
    Rmax 15 (Rmin 95 (IZR (single initialAttrs) + singleShift)) in
  {| charisma := Math_round charismaTarget;
     dumbness := Math_round dumbTarget;
     single := Math_round singleTarget |}.

(** [interpolateAttributes]. *)
Definition interpolateAttributes
    (initial target : FundabilityAttributes) (progress : R)
    : FundabilityAttributes :=
  {| charisma := Math_round (IZR (charisma initial) +
       (IZR (charisma target) - IZR (charisma initial)) * progress);
     dumbness := Math_round (IZR (dumbness initial) +
       (IZR (dumbness target) - IZR (dumbness initial)) * progress);
     single := Math_round (IZR (single initial) +
       (IZR (single target) - IZR (single initial)) * progress) |}.

(** [calculateDeterministicTargetScore].  [expressions.happy || 0] is [happy]
    on numbers.  [Math.abs(shiftFactor) < 3] and [confidence > 0.5] are
    decided with the order of the reals. *)
Definition calculateDeterministicTargetScore
    (initialScore : Z) (d : FaceDetectionResult) : Z :=
  let target := IZR initialScore in
  let confidence := score d in
  let happy := happy (expressions d) in
  let shiftFactor := sin (confidence * 100 + happy * 50) * 15 in
  let target := target + shiftFactor in
  let target :=
    if Rlt_dec (Rabs shiftFactor) 3
    then target + (if Rlt_dec (5 / 10) confidence then 5 else -5)
    else target in
  Math_round (Rmax 15 (Rmin 90 target)).

End Scoring.

(** [getFeedbackMessage]: [Array.prototype.find], then [?.message || ...],
    where an empty message is falsy. *)
Definition inBand (s : Z) (fb : FeedbackBand) : bool :=
  ((s >=? minScore fb) && (s <=? maxScore fb))%Z.

Definition getFeedbackMessage (s : Z) : string :=
  match find (inBand s) feedbackMessages with
  | Some fb =>
    match message fb with
    | EmptyString => "Analyzing..."
    | m => m
    end
  | None => "Analyzing..."
  end%string.

(** *** The sampling session *)

(** The arguments of one call of the [onScoreUpdate] prop. *)
Record ScoreUpdate : Type := {
  newScore : Z;
  newFeedback : string;
  isFinal : bool;
  newAttributes : option FundabilityAttributes
}.

(** The two state variables of the session.  A value of this type is either
    what a render read (and what every closure created in that render keeps
    reading), or what the setters have written for the next render. *)
Record State : Type := {
  analysisStartTime : option Z;
  finalScoreCalculated : bool
}.

(** The four refs of the session. *)
Record Refs : Type := {
  initialAnimatedScoreRef : option Z;
  finalAnimatedTargetScoreRef : option Z;
  initialAttributesRef : option FundabilityAttributes;
  finalAttributesRef : option FundabilityAttributes
}.

(** Everything a poll tick can write. *)
Record Store : Type := {
  state : State;
  refs : Refs
}.

Definition setAnalysisStartTime (v : option Z) (s : Store) : Store :=
  {| state := {| analysisStartTime := v;
                 finalScoreCalculated := finalScoreCalculated (state s) |};
     refs := refs s |}.

Definition setFinalScoreCalculated (v : bool) (s : Store) : Store :=
  {| state := {| analysisStartTime := analysisStartTime (state s);
                 finalScoreCalculated := v |};
     refs := refs s |}.

Definition setRefs (r : Refs) (s : Store) : Store :=
  {| state := state s; refs := r |}.

Definition noRefs : Refs :=
  {| initialAnimatedScoreRef := None;
     finalAnimatedTargetScoreRef := None;
     initialAttributesRef := None;
     finalAttributesRef := None |}.

(** What one run of the interval callback meets. *)
Inductive Poll : Type :=
| VideoUnavailable
    (* no video element, or the video is paused or has ended *)
| InferenceThrows
    (* the awaited detection rejects; the [catch] swallows it *)
| Detections (startTime : Z) (detections : list FaceDetectionResult).
    (* the detection resolves; [startTime] is [Date.now()] at that moment *)

(** [analysisStartTime || currentTime]: [null] and [0] are falsy. *)
Definition orCurrentTime (a : option Z) (currentTime : Z) : Z :=
  match a with
  | Some t => if (t =? 0)%Z then currentTime else t
  | None => currentTime
  end.

(** The initialisation block of the callback ([analysisStartTime === null]). *)
Definition initialise (startTime : Z) (person : FaceDetectionResult)
    (s : Store) : Store :=
  let s := setAnalysisStartTime (Some startTime) s in
  let initialScore := calculateRawFundabilityScore person in
  let initialAttrs := calculateAttributes person in
  setRefs
    {| initialAnimatedScoreRef := Some initialScore;
       finalAnimatedTargetScoreRef :=
         Some (calculateDeterministicTargetScore initialScore person);
       initialAttributesRef := Some initialAttrs;
       finalAttributesRef :=
         Some (calculateDeterministicAttributeTargets initialAttrs person) |}
    s.

(** The body of the interval callback created by [startFaceDetection].
    [c] holds the values of [analysisStartTime] and [finalScoreCalculated] in
    the render whose [startFaceDetection] created the callback; [currentTime]
    is [Date.now()] at the start of the run.  The result is the store after
    the run and the calls of [onScoreUpdate] made by it. *)
Definition tick (c : State) (currentTime : Z) (p : Poll) (s : Store)
    : Store * list ScoreUpdate :=
  match p with
  | VideoUnavailable => (s, [])
  | InferenceThrows => (s, [])
  | Detections _ [] => (s, [])
  | Detections startTime (person :: _) =>
    if finalScoreCalculated c then (s, [])
    else
      let s :=
        match analysisStartTime c with
        | None => initialise startTime person s
        | Some _ => s
        end in
      let timeElapsed :=
        (currentTime - orCurrentTime (analysisStartTime c) currentTime)%Z in
      if (timeElapsed >=? ANALYSIS_DURATION_MS)%Z then
        let s' := setFinalScoreCalculated true s in
        let finalScore :=
          match finalAnimatedTargetScoreRef (refs s) with
          | Some v => v
          | None => calculateRawFundabilityScore person
          end in
        let finalAttributes :=
          match finalAttributesRef (refs s) with
          | Some a => a
          | None => calculateAttributes person
          end in
        (s', [ {| newScore := finalScore;
                  newFeedback := getFeedbackMessage finalScore;
                  isFinal := true;
                  newAttributes := Some finalAttributes |} ])
      else
        match initialAnimatedScoreRef (refs s),
              finalAnimatedTargetScoreRef (refs s),
              initialAttributesRef (refs s),
              finalAttributesRef (refs s) with
        | Some initialScore, Some targetScore, Some initialAttrs, Some targetAttrs =>
          let progress :=
            Rmin 1 (IZR timeElapsed / IZR ANALYSIS_DURATION_MS) in
          let animatedScore :=
            (IZR initialScore +
             (IZR targetScore - IZR initialScore) * progress)%R in
          let currentDisplayScore :=
            Math_round (Rmax 0 (Rmin 100 animatedScore)) in
          let currentAttributes :=
            interpolateAttributes initialAttrs targetAttrs progress in
          (s, [ {| newScore := currentDisplayScore;
                   newFeedback := getFeedbackMessage currentDisplayScore;
                   isFinal := false;
                   newAttributes := Some currentAttributes |} ])
        | _, _, _, _ => (s, [])
        end
  end.

(** *** The component around the session *)

(** The component as a transition system: the written state and the refs,
    the closure registered as the video's [play] listener and the closure
    running as the interval callback.  A closure is identified with the
    [State] its render read.  Every render defines a new
    [startFaceDetection], but the only code that calls or registers one is
    the effect with dependency [isModelLoaded], so the closures in use are
    those of the render in which that effect ran. *)
Record Component : Type := {
  isModelLoaded : bool;
  store : Store;
  playListener : option State;
  detectionInterval : option State
}.

(** [webcamRef.current?.video] when the models finish loading. *)
Inductive VideoStatus : Type :=
| NoVideo
| NotReady
| Ready.   (* readyState === 4 *)

Inductive Event : Type :=
| ModelsLoaded (v : VideoStatus)
    (* [loadModels] resolves and calls [setIsModelLoaded(true)] *)
| Play (present : bool)
    (* the video fires [play]; [present]: video and canvas are mounted *)
| Tick (currentTime : Z) (p : Poll).
    (* the interval fires *)

Definition mount : Component :=
  {| isModelLoaded := false;
     store := {| state := {| analysisStartTime := None;
                             finalScoreCalculated := false |};
                 refs := noRefs |};
     playListener := None;
     detectionInterval := None |}.

(** [startFaceDetection] of the render that read [c]: the guard on the
    video and canvas, the resets, and a new interval whose callback is a
    closure of the same render. *)
Definition startFaceDetection (c : State) (present : bool) (w : Component)
    : Component :=
  if present then
    {| isModelLoaded := isModelLoaded w;
       store := setRefs noRefs
                  (setFinalScoreCalculated false
                     (setAnalysisStartTime None (store w)));
       playListener := playListener w;
       detectionInterval := Some c |}
  else w.

(** One event.  The effect with dependency [isModelLoaded] runs in the render
    that follows the change of [isModelLoaded], and only then, so the
    closure it starts or registers is that render's. *)
Definition step (w : Component) (e : Event) : Component * list ScoreUpdate :=
  match e with
  | ModelsLoaded v =>
    if isModelLoaded w then (w, [])
    else
      let w := {| isModelLoaded := true;
                  store := store w;
                  playListener := playListener w;
                  detectionInterval := detectionInterval w |} in
      match v with
      | NoVideo => (w, [])
      | Ready => (startFaceDetection (state (store w)) true w, [])
      | NotReady =>
        ({| isModelLoaded := isModelLoaded w;
            store := store w;
            playListener := Some (state (store w));
            detectionInterval := detectionInterval w |}, [])
      end
  | Play present =>
    match playListener w with
    | Some c => (startFaceDetection c present w, [])
    | None => (w, [])
    end
  | Tick currentTime p =>
    match detectionInterval w with
    | Some c =>
      let '(s, out) := tick c currentTime p (store w) in
      ({| isModelLoaded := isModelLoaded w;
          store := s;
          playListener := playListener w;
          detectionInterval := detectionInterval w |}, out)
    | None => (w, [])
    end
  end.

(** A sequence of events, with the calls of [onScoreUpdate] in order. *)
Fixpoint run (w : Component) (es : list Event) : Component * list ScoreUpdate :=
  match es with
  | [] => (w, [])
  | e :: es =>
    let '(w1, out1) := step w e in
    let '(w2, out2) := run w1 es in
    (w2, out1 ++ out2)
  end.

End WebcamComponent.

(** ** App: the consumer callback *)

Module App.
Import WebcamComponent.

Record AppState : Type := {
  score : option Z;
  feedback : string;
  finalScore : option Z;
  finalFeedback : string;
  isAnalysisComplete : bool;
  attributes : option FundabilityAttributes;
  finalAttributes : option FundabilityAttributes
}.

Definition initialState : AppState :=
  {| score := None; feedback := EmptyString;
     finalScore := None; finalFeedback := EmptyString;
     isAnalysisComplete := false; attributes := None;
     finalAttributes := None |}.

(** [handleScoreUpdate] of the render that read [render]: the only state
    variable it reads is [isAnalysisComplete], as that render read it; the
    setters write to [st]. *)
Definition handleScoreUpdate (render : AppState) (u : ScoreUpdate)
    (st : AppState) : AppState :=
  if isAnalysisComplete render then st
  else if isFinal u then
    {| score := Some (newScore u);
       feedback := newFeedback u;
       finalScore := Some (newScore u);
       finalFeedback := newFeedback u;
       isAnalysisComplete := true;
       attributes :=
         match newAttributes u with
         | Some a => Some a
         | None => attributes st
         end;
       finalAttributes :=
         match newAttributes u with
         | Some a => Some a
         | None => finalAttributes st
         end |}
  else if negb (isAnalysisComplete render) then
    {| score := Some (newScore u);
       feedback := newFeedback u;
       finalScore := finalScore st;
       finalFeedback := finalFeedback st;
       isAnalysisComplete := isAnalysisComplete st;
       attributes :=
         match newAttributes u with
         | Some a => Some a
         | None => attributes st
         end;
       finalAttributes := finalAttributes st |}
  else st.

End App.

(** ** ScoreDisplay: the presentation animator *)

Module ScoreDisplay.
Import WebcamComponent.

(** The [attributes] prop is an object: the dependency array of an effect
    compares it by identity, so the object carries one. *)
Record AttributesObject : Type := {
  identity : nat;
  value : FundabilityAttributes
}.

(** [ScoreDisplayProps]. *)
Record Props : Type := {
  score : option Z;
  feedback : string;
  isFinalized : bool;
  attributes : option AttributesObject
}.

Definition DURATION : Q := 150.

Definition easeOutQuad (t : Q) : Q := t * (2 - t).

(** A callback handed to [requestAnimationFrame], with the variables of the
    effect run that created it: [startTime] (assigned by the first frame),
    the start value and the target. *)
Inductive FrameCallback : Type :=
| animate (startTime : option Q) (startValue targetScore : Z)
| animateAttributes (startTime : option Q)
    (startValues targetValues : FundabilityAttributes).

(** The component instance: its displayed state, its refs, the browser's
    queue of animation-frame callbacks with their handles, whether the last
    run of the score effect returned its cleanup, and the props of the last
    render (the dependencies the next render compares with). *)
Record Display : Type := {
  displayScore : Z;
  currentScoreRef : Z;
  animationFrameRef : option nat;
  displayAttributes : FundabilityAttributes;
  currentAttributesRef : FundabilityAttributes;
  frameQueue : list (nat * FrameCallback);
  nextHandle : nat;
  scoreCleanup : bool;
  rendered : option Props
}.

Definition zeroAttributes : FundabilityAttributes :=
  {| charisma := 0; dumbness := 0; single := 0 |}.

Definition mount : Display :=
  {| displayScore := 0; currentScoreRef := 0; animationFrameRef := None;
     displayAttributes := zeroAttributes;
     currentAttributesRef := zeroAttributes;
     frameQueue := []; nextHandle := 1%nat; scoreCleanup := false;
     rendered := None |}.

(** [setDisplayScore(v); currentScoreRef.current = v]. *)
Definition showScore (v : Z) (d : Display) : Display :=
  {| displayScore := v; currentScoreRef := v;
     animationFrameRef := animationFrameRef d;
     displayAttributes := displayAttributes d;
     currentAttributesRef := currentAttributesRef d;
     frameQueue := frameQueue d; nextHandle := nextHandle d;
     scoreCleanup := scoreCleanup d; rendered := rendered d |}.

(** [setDisplayAttributes(a); currentAttributesRef.current = a]. *)
Definition showAttributes (a : FundabilityAttributes) (d : Display) : Display :=
  {| displayScore := displayScore d; currentScoreRef := currentScoreRef d;
     animationFrameRef := animationFrameRef d;
     displayAttributes := a; currentAttributesRef := a;
     frameQueue := frameQueue d; nextHandle := nextHandle d;
     scoreCleanup := scoreCleanup d; rendered := rendered d |}.

Definition setAnimationFrameRef (h : option nat) (d : Display) : Display :=
  {| displayScore := displayScore d; currentScoreRef := currentScoreRef d;
     animationFrameRef := h;
     displayAttributes := displayAttributes d;
     currentAttributesRef := currentAttributesRef d;
     frameQueue := frameQueue d; nextHandle := nextHandle d;
     scoreCleanup := scoreCleanup d; rendered := rendered d |}.

Definition setFrameQueue (q : list (nat * FrameCallback)) (n : nat)
    (d : Display) : Display :=
  {| displayScore := displayScore d; currentScoreRef := currentScoreRef d;
     animationFrameRef := animationFrameRef d;
     displayAttributes := displayAttributes d;
     currentAttributesRef := currentAttributesRef d;
     frameQueue := q; nextHandle := n;
     scoreCleanup := scoreCleanup d; rendered := rendered d |}.

Definition setScoreCleanup (b : bool) (d : Display) : Display :=
  {| displayScore := displayScore d; currentScoreRef := currentScoreRef d;
     animationFrameRef := animationFrameRef d;
     displayAttributes := displayAttributes d;
     currentAttributesRef := currentAttributesRef d;
     frameQueue := frameQueue d; nextHandle := nextHandle d;
     scoreCleanup := b; rendered := rendered d |}.

Definition setRendered (p : Props) (d : Display) : Display :=
  {| displayScore := displayScore d; currentScoreRef := currentScoreRef d;
     animationFrameRef := animationFrameRef d;
     displayAttributes := displayAttributes d;
     currentAttributesRef := currentAttributesRef d;
     frameQueue := frameQueue d; nextHandle := nextHandle d;
     scoreCleanup := scoreCleanup d; rendered := Some p |}.

(** [window.requestAnimationFrame(cb)]: the handle and the new queue. *)
Definition requestAnimationFrame (cb : FrameCallback) (d : Display)
    : nat * Display :=
  (nextHandle d,
   setFrameQueue (frameQueue d ++ [(nextHandle d, cb)]) (S (nextHandle d)) d).

(** [window.cancelAnimationFrame(h)]. *)
Definition cancelAnimationFrame (h : nat) (d : Display) : Display :=
  setFrameQueue
    (filter (fun x => negb (Nat.eqb (fst x) h)) (frameQueue d))
    (nextHandle d) d.

(** [if (animationFrameRef.current !== null)
       window.cancelAnimationFrame(animationFrameRef.current)]. *)
Definition cancelInFlight (d : Display) : Display :=
  match animationFrameRef d with
  | Some h => cancelAnimationFrame h d
  | None => d
  end.

(** The eased value of one frame. *)
Definition eased (startTime timestamp : Q) : Q :=
  easeOutQuad (Math_min1 ((timestamp - startTime) / DURATION)).

Definition finished (startTime timestamp : Q) : bool :=
  Qle_bool 1 (Math_min1 ((timestamp - startTime) / DURATION)).

Definition blend (startValue target : Z) (e : Q) : Z :=
  Math_roundQ (inject_Z startValue +
               (inject_Z target - inject_Z startValue) * e).

(** One call of a frame callback at [timestamp]. *)
Definition call (timestamp : Q) (cb : FrameCallback) (d : Display) : Display :=
  match cb with
  | animate startTime startValue targetScore =>
    let startTime :=
      match startTime with Some t => t | None => timestamp end in
    let newDisplayScore :=
      blend startValue targetScore (eased startTime timestamp) in
    let d := showScore newDisplayScore d in
    if finished startTime timestamp then setAnimationFrameRef None d
    else
      let '(h, d) :=
        requestAnimationFrame
          (animate (Some startTime) startValue targetScore) d in
      setAnimationFrameRef (Some h) d
  | animateAttributes startTime startValues targetValues =>
    let startTime :=
      match startTime with Some t => t | None => timestamp end in
    let e := eased startTime timestamp in
    let newAttributes :=
      {| charisma := blend (charisma startValues) (charisma targetValues) e;
         dumbness := blend (dumbness startValues) (dumbness targetValues) e;
         single := blend (single startValues) (single targetValues) e |} in
    let d := showAttributes newAttributes d in
    if finished startTime timestamp then d
    else
      snd (requestAnimationFrame
             (animateAttributes (Some startTime) startValues targetValues) d)
  end.

(** One animation frame: the callbacks queued before the frame run in order;
    those they queue wait for the next frame. *)
Definition frame (timestamp : Q) (d : Display) : Display :=
  fold_left (fun d hc => call timestamp (snd hc) d) (frameQueue d)
    (setFrameQueue [] (nextHandle d) d).

(** The body of the score effect. *)
Definition scoreEffect (p : Props) (d : Display) : Display :=
  match score p with
  | None => setScoreCleanup false (showScore 0 d)
  | Some s =>
    if isFinalized p then
      setScoreCleanup false
        (setAnimationFrameRef None (cancelInFlight (showScore s d)))
    else
      let startValue := currentScoreRef d in
      let d := cancelInFlight d in
      let '(h, d) := requestAnimationFrame (animate None startValue s) d in
      setScoreCleanup true (setAnimationFrameRef (Some h) d)
  end.

(** The body of the attributes effect: the handle of the request is
    dropped and the effect returns no cleanup. *)
Definition attributesEffect (p : Props) (d : Display) : Display :=
  match attributes p with
  | None => d
  | Some a =>
    if isFinalized p then showAttributes (value a) d
    else
      let startValues := currentAttributesRef d in
      snd (requestAnimationFrame
             (animateAttributes None startValues (value a)) d)
  end.

Definition sameScore (a b : option Z) : bool :=
  match a, b with
  | Some x, Some y => Z.eqb x y
  | None, None => true
  | _, _ => false
  end.

Definition sameObject (a b : option AttributesObject) : bool :=
  match a, b with
  | Some x, Some y => Nat.eqb (identity x) (identity y)
  | None, None => true
  | _, _ => false
  end.

(** Did the dependencies [score, isFinalized] change since the last render? *)
Definition scoreDepsChanged (p : Props) (d : Display) : bool :=
  match rendered d with
  | None => true
  | Some q =>
    negb (sameScore (score q) (score p) &&
          Bool.eqb (isFinalized q) (isFinalized p))
  end.

(** Did the dependencies [attributes, isFinalized] change? *)
Definition attributesDepsChanged (p : Props) (d : Display) : bool :=
  match rendered d with
  | None => true
  | Some q =>
    negb (sameObject (attributes q) (attributes p) &&
          Bool.eqb (isFinalized q) (isFinalized p))
  end.

(** A render with props [p]: the cleanup of the score effect if it is to
    run again, then the effects whose dependencies changed, in order. *)
Definition render (p : Props) (d : Display) : Display :=
  let runScore := scoreDepsChanged p d in
  let runAttributes := attributesDepsChanged p d in
  let d := if runScore && scoreCleanup d then cancelInFlight d else d in
  let d := if runScore then scoreEffect p d else d in
  let d := if runAttributes then attributesEffect p d else d in
  setRendered p d.

Inductive Event : Type :=
| Render (p : Props)
| Frame (timestamp : Q).

Definition step (d : Display) (e : Event) : Display :=
  match e with
  | Render p => render p d
  | Frame timestamp => frame timestamp d
  end.

Definition run (d : Display) (es : list Event) : Display :=
  fold_left step es d.

End ScoreDisplay.

(** ** The raw score in binary64 *)

Module Binary64.
Import Floats.
Local Open Scope float_scope.

(** [faceapi.FaceExpressions] and [FaceDetectionResult], their numbers as
    binary64. *)
Record FaceExpressions : Type := {
  neutral : float;
  happy : float;
  sad : float;
  angry : float;
  fearful : float;
  disgusted : float;
  surprised : float
}.

Record FaceDetectionResult : Type := {
  score : float;
  expressions : FaceExpressions
}.

Definition isNegativeZero (x : float) : bool :=
  match classify x with
  | NZero => true
  | _ => false
  end.

(** [Math.max] and [Math.min] of two numbers: NaN when either is NaN, and
    +0 is larger than -0. *)
Definition Math_max (a b : float) : float :=
  if is_nan a || is_nan b then nan
  else if a <? b then b
  else if b <? a then a
  else if isNegativeZero a then b else a.

Definition Math_min (a b : float) : float :=
  if is_nan a || is_nan b then nan
  else if a <? b then a
  else if b <? a then b
  else if isNegativeZero a then a else b.

(** The floor of [n * 2^e + 1/2] for [e < 0], [n] being the signed
    mantissa. *)
Definition roundHalfUp (s : bool) (m : positive) (e : Z) : Z :=
  let n := if s then Z.neg m else Z.pos m in
  ((2 * n + 2 ^ (- e)) / 2 ^ (1 - e))%Z.

(** An integer below 2^53 in size as a binary64 number. *)
Definition ofInteger (z : Z) : float :=
  match z with
  | Z0 => 0
  | Zpos p => of_uint63 (Uint63.of_Z (Zpos p))
  | Zneg p => - of_uint63 (Uint63.of_Z (Zpos p))
  end.

(** [Math.round]: the exact floor of [x + 1/2]; a number with no
    fractional bit, an infinity and NaN are returned as they are, and a
    result of zero keeps the sign of [x]. *)
Definition Math_round (x : float) : float :=
  match Prim2SF x with
  | S754_finite s m e =>
    if (0 <=? e)%Z then x
    else
      let r := roundHalfUp s m e in
      if (r =? 0)%Z then (if s then -0 else 0) else ofInteger r
  | _ => x
  end.

Section WithSine.

(** [Math.sin]. *)
Variable Math_sin : float -> float.

(** [calculateRawFundabilityScore], operation by operation. *)
Definition calculateRawFundabilityScore (d : FaceDetectionResult) : float :=
  let confidence := score d in
  let e := expressions d in
  let baseScore := confidence * 50 in
  let expressionBonus := (happy e * 30) + (neutral e * 15) + (surprised e * 10) in
  let expressionPenalty := (sad e * 20) + (angry e * 25) in
  let seedValue := (confidence * 100) + (happy e * 50) + (neutral e * 25) in
  let deterministicFactor := Math_sin seedValue * 5 in
  let totalScore :=
    baseScore + expressionBonus - expressionPenalty + deterministicFactor in
  Math_round (Math_max 0 (Math_min 100 totalScore)).

End WithSine.

End Binary64.

(** ** Vocabulary of the statements in binary64 *)

Section Binary64Vocabulary.
Import Floats.
Import Binary64.
Local Open Scope float_scope.

(** The declared domain of a snapshot, in binary64. *)
Definition probabilityF (x : float) : Prop :=
  (0 <=? x) && (x <=? 1) = true.

Definition validSnapshotF (d : FaceDetectionResult) : Prop :=
  probabilityF (score d) /\
  probabilityF (neutral (expressions d)) /\
  probabilityF (happy (expressions d)) /\
  probabilityF (sad (expressions d)) /\
  probabilityF (angry (expressions d)) /\
  probabilityF (fearful (expressions d)) /\
  probabilityF (disgusted (expressions d)) /\
  probabilityF (surprised (expressions d)).

(** The raw score as the claim words it: one flat sum, evaluated from left
    to right, clamped to [0,100], then rounded.  To be compared with
    [Binary64.calculateRawFundabilityScore]. *)
Definition rawScore_flat (Math_sin : float -> float)
    (d : FaceDetectionResult) : float :=
  let confidence := score d in
  let e := expressions d in
  Math_round (Math_max 0 (Math_min 100
    (confidence * 50 + happy e * 30 + neutral e * 15 + surprised e * 10
     - sad e * 20 - angry e * 25
     + Math_sin (confidence * 100 + happy e * 50 + neutral e * 25) * 5))).

(** The raw score as the amended claim words it: the bonus and the
    penalty are each summed first.  To be compared with
    [Binary64.calculateRawFundabilityScore]. *)
Definition rawScore_grouped (Math_sin : float -> float)
    (d : FaceDetectionResult) : float :=
  let confidence := score d in
  let e := expressions d in
  Math_round (Math_max 0 (Math_min 100
    (confidence * 50
     + (happy e * 30 + neutral e * 15 + surprised e * 10)
     - (sad e * 20 + angry e * 25)
     + Math_sin (confidence * 100 + happy e * 50 + neutral e * 25) * 5))).

(** A snapshot of the declared domain: surprised 0.51, sad 0.03, angry
    0.04 (the binary64 numbers nearest to them), everything else 0. *)
Definition mildSurprise : FaceDetectionResult :=
  {| score := 0;
     expressions := {| neutral := 0; happy := 0;
                       sad := 0x1.eb851eb851eb8p-6;
                       angry := 0x1.47ae147ae147bp-5;
                       fearful := 0; disgusted := 0;
                       surprised := 0x1.051eb851eb852p-1 |} |}.

(** The scenario snapshot in binary64: confidence 0.9, happy 0.8, neutral
    0.1 (the binary64 numbers nearest to them), everything else 0. *)
Definition scenarioF : FaceDetectionResult :=
  {| score := 0x1.ccccccccccccdp-1;
     expressions := {| neutral := 0x1.999999999999ap-4;
                       happy := 0x1.999999999999ap-1;
                       sad := 0; angry := 0; fearful := 0; disgusted := 0;
                       surprised := 0 |} |}.

(** The binary64 number nearest to the sine of 132.5, the seed of the
    scenario, and its two neighbours. *)
Definition sineOfScenario : list float :=
  [0x1.0cf8af48cf424p-1; 0x1.0cf8af48cf425p-1; 0x1.0cf8af48cf426p-1].

End Binary64Vocabulary.

(** ** Vocabulary of the statements *)

Section Vocabulary.
Import WebcamComponent.

(** The declared domain of a snapshot: the confidence and every expression
    probability lie in [0,1]. *)
Definition probability (x : R) : Prop := (0 <= x <= 1)%R.

Definition validSnapshot (d : FaceDetectionResult) : Prop :=
  probability (score d) /\
  probability (neutral (expressions d)) /\
  probability (happy (expressions d)) /\
  probability (sad (expressions d)) /\
  probability (angry (expressions d)) /\
  probability (fearful (expressions d)) /\
  probability (disgusted (expressions d)) /\
  probability (surprised (expressions d)).

(** The snapshot of the specification's scenario: confidence 0.9, happy 0.8,
    neutral 0.1, everything else 0. *)
Definition exampleSnapshot : FaceDetectionResult :=
  {| score := 9 / 10;
     expressions := {| neutral := 1 / 10; happy := 8 / 10; sad := 0;
                       angry := 0; fearful := 0; disgusted := 0;
                       surprised := 0 |} |}%R.

(** The 0..100 domain of scores and attributes. *)
Definition percent (n : Z) : Prop := (0 <= n <= 100)%Z.

Definition percentAttributes (a : FundabilityAttributes) : Prop :=
  percent (charisma a) /\ percent (dumbness a) /\ percent (single a).

(** Every value carried by one call of [onScoreUpdate] is in the domain. *)
Definition percentUpdate (u : ScoreUpdate) : Prop :=
  percent (newScore u) /\
  match newAttributes u with
  | Some a => percentAttributes a
  | None => True
  end.

(** The states of the component that some sequence of events leads to. *)
Definition reachable (w : Component) : Prop :=
  exists es : list Event, fst (run mount es) = w.

(** A band contains a score. *)
Definition containsScore (fb : FeedbackBand) (s : Z) : Prop :=
  (minScore fb <= s <= maxScore fb)%Z.

(** [fb] is the first band of the table that contains [s]. *)
Definition firstBand (s : Z) (fb : FeedbackBand) : Prop :=
  exists before after : list FeedbackBand,
    feedbackMessages = before ++ fb :: after /\
    containsScore fb s /\
    Forall (fun b => ~ containsScore b s) before.

(** The bands of a table follow each other without gap or overlap, from
    [lo] up to [hi]. *)
Fixpoint contiguous (lo hi : Z) (l : list FeedbackBand) : bool :=
  match l with
  | [] => (lo =? hi + 1)%Z
  | fb :: l =>
    (minScore fb =? lo)%Z && (minScore fb <=? maxScore fb)%Z &&
    contiguous (maxScore fb + 1) hi l
  end.

(** What the render that follows the loading of the models reads: no start
    time, no final score. *)
Definition firstRender : State :=
  {| analysisStartTime := None; finalScoreCalculated := false |}.

(** The session has captured nothing: the written state and the refs are
    as [startFaceDetection] resets them. *)
Definition idle (s : Store) : Prop :=
  state s = firstRender /\ refs s = noRefs.

(** The non-final update that carries the raw score and the raw attributes
    of [person]. *)
Definition initialUpdate (person : FaceDetectionResult) : ScoreUpdate :=
  {| newScore := calculateRawFundabilityScore person;
     newFeedback := getFeedbackMessage (calculateRawFundabilityScore person);
     isFinal := false;
     newAttributes := Some (calculateAttributes person) |}.

(** A poll that brings no detection: the inference throws, the detection
    list is empty, or the video is not playing. *)
Definition noDetection (p : Poll) : Prop :=
  match p with
  | VideoUnavailable => True
  | InferenceThrows => True
  | Detections _ [] => True
  | Detections _ (_ :: _) => False
  end.

(** An event that is not a poll with a detection. *)
Definition quiet (e : Event) : Prop :=
  match e with
  | Tick _ p => noDetection p
  | _ => True
  end.

(** Until the models are loaded nothing has been written, registered or
    started; afterwards the listener and the interval callback are closures
    of the first render. *)
Definition closuresOfFirstRender (w : Component) : Prop :=
  (isModelLoaded w = false ->
   state (store w) = firstRender /\ playListener w = None /\
   detectionInterval w = None) /\
  (forall c, playListener w = Some c -> c = firstRender) /\
  (forall c, detectionInterval w = Some c -> c = firstRender).

(** The refs as the initialisation block leaves them for [person]. *)
Definition capturedFrom (person : FaceDetectionResult) : Refs :=
  {| initialAnimatedScoreRef := Some (calculateRawFundabilityScore person);
     finalAnimatedTargetScoreRef :=
       Some (calculateDeterministicTargetScore
               (calculateRawFundabilityScore person) person);
     initialAttributesRef := Some (calculateAttributes person);
     finalAttributesRef :=
       Some (calculateDeterministicAttributeTargets
               (calculateAttributes person) person) |}.

(** Every value held by the refs is in the 0..100 domain. *)
Definition percentRefs (r : Refs) : Prop :=
  (forall v, initialAnimatedScoreRef r = Some v -> percent v) /\
  (forall v, finalAnimatedTargetScoreRef r = Some v -> percent v) /\
  (forall a, initialAttributesRef r = Some a -> percentAttributes a) /\
  (forall a, finalAttributesRef r = Some a -> percentAttributes a).

(** A second snapshot of the declared domain: confidence 0.9, neutral 1,
    everything else 0. *)
Definition neutralSnapshot : FaceDetectionResult :=
  {| score := 9 / 10;
     expressions := {| neutral := 1; happy := 0; sad := 0; angry := 0;
                       fearful := 0; disgusted := 0; surprised := 0 |} |}%R.

(** [n] interval ticks 100 ms apart from [t0], each detecting [person]
    after 40 ms of inference. *)
Definition continuousDetections (t0 : Z) (person : FaceDetectionResult)
    (n : nat) : list Event :=
  map (fun k =>
         Tick (t0 + 100 * Z.of_nat k)
              (Detections (t0 + 100 * Z.of_nat k + 40) [person]))
      (seq 0 n).

(** The scenario of a full session: the models load with the video ready,
    then the same face is detected on every tick from 1000 ms to 6000 ms,
    so that the 51st tick comes 5000 ms after the first detection. *)
Definition fiveSecondSession : list Event :=
  ModelsLoaded Ready :: continuousDetections 1000 exampleSnapshot 51.

(** The scenario without a face: the models load, the video plays, and for
    five seconds every tick finds no detection or fails. *)
Definition fiveSecondsWithoutFace : list Event :=
  ModelsLoaded NotReady :: Play true ::
  map (fun k =>
         Tick (1000 + 100 * Z.of_nat k)
              (if Nat.even k then Detections (1040 + 100 * Z.of_nat k) []
               else InferenceThrows))
      (seq 0 51).

(** What the claim about a final update without attributes promises of
    [handleScoreUpdate]: the analysis is marked complete, score and feedback
    hold the given values, the stored attributes are untouched. *)
Definition locksWithoutAttributes (render : App.AppState) (u : ScoreUpdate)
    (st : App.AppState) : Prop :=
  let st' := App.handleScoreUpdate render u st in
  App.isAnalysisComplete st' = true /\
  App.score st' = Some (newScore u) /\
  App.feedback st' = newFeedback u /\
  App.finalScore st' = Some (newScore u) /\
  App.finalFeedback st' = newFeedback u /\
  App.attributes st' = App.attributes st /\
  App.finalAttributes st' = App.finalAttributes st.

(** An [App] state in which an analysis has completed with score 50. *)
Definition completedAt50 : App.AppState :=
  {| App.score := Some 50%Z;
     App.feedback := "Middle of the pack. Try adding glasses?";
     App.finalScore := Some 50%Z;
     App.finalFeedback := "Middle of the pack. Try adding glasses?";
     App.isAnalysisComplete := true;
     App.attributes := None; App.finalAttributes := None |}.

(** A final update with score 60 and no attributes. *)
Definition final60 : ScoreUpdate :=
  {| newScore := 60; newFeedback := "Middle of the pack. Try adding glasses?";
     isFinal := true; newAttributes := None |}.


(** The component once the models have loaded with the video ready. *)
Definition started : Component := fst (step mount (ModelsLoaded Ready)).

(** *** Scenarios of the animator *)

Definition attrs (n : Z) : FundabilityAttributes :=
  {| charisma := n; dumbness := n; single := n |}.

(** A non-final update: score 50, attributes 80. *)
Definition running50 : ScoreDisplay.Props :=
  {| ScoreDisplay.score := Some 50%Z;
     ScoreDisplay.feedback := "Middle of the pack. Try adding glasses?";
     ScoreDisplay.isFinalized := false;
     ScoreDisplay.attributes :=
       Some {| ScoreDisplay.identity := 1;
               ScoreDisplay.value := attrs 80 |} |}.

(** A second non-final update: score 55, attributes 20. *)
Definition running55 : ScoreDisplay.Props :=
  {| ScoreDisplay.score := Some 55%Z;
     ScoreDisplay.feedback := "Middle of the pack. Try adding glasses?";
     ScoreDisplay.isFinalized := false;
     ScoreDisplay.attributes :=
       Some {| ScoreDisplay.identity := 2;
               ScoreDisplay.value := attrs 20 |} |}.

(** The final update: score 60, attributes 90. *)
Definition finalized60 : ScoreDisplay.Props :=
  {| ScoreDisplay.score := Some 60%Z;
     ScoreDisplay.feedback := "Middle of the pack. Try adding glasses?";
     ScoreDisplay.isFinalized := true;
     ScoreDisplay.attributes :=
       Some {| ScoreDisplay.identity := 3;
               ScoreDisplay.value := attrs 90 |} |}.

(** A non-final update, two frames of its transitions, then the final
    update. *)
Definition finalizedInFlight : list ScoreDisplay.Event :=
  [ScoreDisplay.Render running50; ScoreDisplay.Frame 0; ScoreDisplay.Frame 16;
   ScoreDisplay.Render finalized60].

(** A non-final update, one frame, then a second non-final update. *)
Definition updatedInFlight : list ScoreDisplay.Event :=
  [ScoreDisplay.Render running50; ScoreDisplay.Frame 0;
   ScoreDisplay.Render running55].

(** The targets of the queued transitions of the score, and of the
    attributes. *)
Definition scoreTargets (d : ScoreDisplay.Display) : list Z :=
  flat_map (fun hc =>
              match snd hc with
              | ScoreDisplay.animate _ _ target => [target]
              | ScoreDisplay.animateAttributes _ _ _ => []
              end) (ScoreDisplay.frameQueue d).

Definition attributeTargets (d : ScoreDisplay.Display)
    : list FundabilityAttributes :=
  flat_map (fun hc =>
              match snd hc with
              | ScoreDisplay.animate _ _ _ => []
              | ScoreDisplay.animateAttributes _ _ target => [target]
              end) (ScoreDisplay.frameQueue d).

End Vocabulary.

(** ** Vocabulary of the animator's bookkeeping *)

Section AnimatorVocabulary.
Import ScoreDisplay.

(** Is the callback a transition of the score? *)
Definition isAnimate (cb : FrameCallback) : bool :=
  match cb with
  | animate _ _ _ => true
  | animateAttributes _ _ _ => false
  end.

(** No transition of the score is queued. *)
Definition noScoreTransition (q : list (nat * FrameCallback)) : Prop :=
  Forall (fun hc => isAnimate (snd hc) = false) q.

(** Every queued transition of the score has the handle that
    [animationFrameRef] holds. *)
Definition designated (r : option nat) (q : list (nat * FrameCallback))
    : Prop :=
  Forall (fun hc => isAnimate (snd hc) = true -> r = Some (fst hc)) q.

(** Every queued handle is older than the next one to be given. *)
Definition freshHandles (n : nat) (q : list (nat * FrameCallback)) : Prop :=
  Forall (fun hc => (fst hc < n)%nat) q.

(** The bookkeeping of the score effect: handles are fresh and distinct, and
    the transition of the score in flight, if any, is the one
    [animationFrameRef] designates. *)
Definition tracked (d : Display) : Prop :=
  freshHandles (nextHandle d) (frameQueue d) /\
  NoDup (map fst (frameQueue d)) /\
  designated (animationFrameRef d) (frameQueue d).

(** The calls of one frame, from the callbacks still to be called. *)
Definition callAll (timestamp : Q) (r : list (nat * FrameCallback))
    (d : Display) : Display :=
  fold_left (fun d hc => call timestamp (snd hc) d) r d.

(** The invariant of a frame in progress: [r] are the callbacks still to
    be called, [d] the display with the queue of the next frame. *)
Definition midFrame (r : list (nat * FrameCallback)) (d : Display) : Prop :=
  freshHandles (nextHandle d) (frameQueue d) /\
  NoDup (map fst (frameQueue d)) /\
  NoDup (map fst r) /\
  ((noScoreTransition (frameQueue d) /\ designated (animationFrameRef d) r) \/
   (noScoreTransition r /\ designated (animationFrameRef d) (frameQueue d))).

(** The queued transitions of the score. *)
Definition scoreTransitions (d : Display) : list FrameCallback :=
  map snd (filter (fun hc => isAnimate (snd hc)) (frameQueue d)).

End AnimatorVocabulary.

(** ** Vocabulary of the further properties *)

Section FurtherVocabulary.
Import WebcamComponent.

(** The raw score and the raw attributes without their sine or cosine
    term. *)
Definition linearScore (d : FaceDetectionResult) : R :=
  let e := expressions d in
  (score d * 50 + (happy e * 30 + neutral e * 15 + surprised e * 10)
   - (sad e * 20 + angry e * 25))%R.

Definition linearCharisma (d : FaceDetectionResult) : R :=
  let e := expressions d in
  (score d * 40 + happy e * 40 + surprised e * 20)%R.

Definition linearDumbness (d : FaceDetectionResult) : R :=
  let e := expressions d in
  ((1 - neutral e) * 40 + surprised e * 30 + disgusted e * 30)%R.

Definition linearSingle (d : FaceDetectionResult) : R :=
  let e := expressions d in
  (sad e * 30 + neutral e * 25 + angry e * 25 + (1 - happy e) * 20)%R.

(** [x] lies between [a] and [b], whichever is the larger. *)
Definition between (a b x : Z) : Prop := (Z.min a b <= x <= Z.max a b)%Z.

Definition betweenAttributes (a b x : FundabilityAttributes) : Prop :=
  between (charisma a) (charisma b) (charisma x) /\
  between (dumbness a) (dumbness b) (dumbness x) /\
  between (single a) (single b) (single x).

(** An event that neither starts the detection nor registers the [play]
    listener: anything but the models loading with a video element. *)
Definition neverStarts (e : Event) : Prop :=
  match e with
  | ModelsLoaded Ready => False
  | ModelsLoaded NotReady => False
  | _ => True
  end.

(** The consumer state after the [handleScoreUpdate] of one render has
    been called with each update in turn. *)
Definition consume (render : App.AppState) (us : list ScoreUpdate)
    (st : App.AppState) : App.AppState :=
  fold_left (fun st u => App.handleScoreUpdate render u st) us st.

(** The scenario snapshot with half a probability of sadness. *)
Definition sadSnapshot : FaceDetectionResult :=
  {| score := 9 / 10;
     expressions := {| neutral := 1 / 10; happy := 8 / 10; sad := 5 / 10;
                       angry := 0; fearful := 0; disgusted := 0;
                       surprised := 0 |} |}%R.

End FurtherVocabulary.

Section FurtherAnimatorVocabulary.
Import ScoreDisplay.

(** The start time of a transition once a frame at [timestamp] has called
    it. *)
Definition startedAt (startTime : option Q) (timestamp : Q) : Q :=
  match startTime with Some t => t | None => timestamp end.

(** The transition of the score towards [s] that started at [t0] is either
    still queued, or over with [s] displayed. *)
Definition underway (t0 : Q) (s : Z) (d : Display) : Prop :=
  (exists sv, scoreTransitions d = [animate (Some t0) sv s]) \/
  (scoreTransitions d = [] /\ displayScore d = s).

End FurtherAnimatorVocabulary.

(** ** ScoreDisplay: the colours *)

Module ScoreDisplayColors.
Local Open Scope string_scope.
Local Open Scope Z_scope.

(** The effect with dependency [score] that sets [scoreColor]. *)
Definition scoreColor (score : option Z) : string :=
  match score with
  | None => "text-gray-400"
  | Some score =>
    if score <? 30 then "text-red-500"
    else if score <? 60 then "text-yellow-500"
    else if score <? 85 then "text-green-500"
    else "text-blue-500"
  end.

(** [getAttributeColor]. *)
Definition getAttributeColor (value : Z) : string :=
  if value <? 30 then "text-red-500"
  else if value <? 50 then "text-orange-500"
  else if value <? 70 then "text-yellow-500"
  else if value <? 85 then "text-green-500"
  else "text-blue-500".

(** The [backgroundColor] of the bar in [renderAttributeBar]. *)
Definition attributeBarColor (value : Z) : string :=
  if value <? 30 then "#EF4444"
  else if value <? 50 then "#F97316"
  else if value <? 70 then "#EAB308"
  else if value <? 85 then "#22C55E"
  else "#3B82F6".

(** The [backgroundColor] of the bar under the main score. *)
Definition scoreBarColor (displayScore : Z) : string :=
  if displayScore <? 30 then "#EF4444"
  else if displayScore <? 60 then "#EAB308"
  else if displayScore <? 85 then "#22C55E"
  else "#3B82F6".

End ScoreDisplayColors.

(** * Properties *)

(** ** Rounding and clamping *)

Section Rounding.
Local Open Scope R_scope.

Lemma Math_round_spec (x : R) :
  IZR (Math_round x) <= x + / 2 < IZR (Math_round x) + 1.
Proof.
  unfold Math_round.
  destruct (base_Int_part (x + / 2)) as [Hle Hgt].
  split; lra.
Qed.

Lemma Math_round_bounds (lo hi : Z) (x : R) :
  IZR lo <= x <= IZR hi -> (lo <= Math_round x <= hi)%Z.
Proof.
  intros [Hlo Hhi].
  destruct (Math_round_spec x) as [Hle Hlt].
  split.
  - apply Z.lt_succ_r, lt_IZR.
    rewrite succ_IZR. lra.
  - apply Z.lt_succ_r, lt_IZR.
    rewrite succ_IZR. lra.
Qed.

Lemma Math_round_unique (n : Z) (x : R) :
  IZR n - / 2 <= x < IZR n + / 2 -> Math_round x = n.
Proof.
  intros [Hlo Hhi].
  unfold Math_round. symmetry. apply Int_part_spec. lra.
Qed.

Lemma Math_round_IZR (n : Z) : Math_round (IZR n) = n.
Proof. apply Math_round_unique. lra. Qed.

Lemma Rmax_Rmin_bounds (lo hi x : R) :
  lo <= hi -> lo <= Rmax lo (Rmin hi x) <= hi.
Proof.
  intros Hle. split.
  - apply Rmax_l.
  - apply Rmax_lub; [exact Hle | apply Rmin_l].
Qed.

Lemma Rmax_Rmin_inside (lo hi x : R) :
  lo <= x <= hi -> Rmax lo (Rmin hi x) = x.
Proof.
  intros [Hlo Hhi].
  rewrite Rmin_right by exact Hhi.
  apply Rmax_right, Hlo.
Qed.

Lemma round_clamp_bounds (lo hi : Z) (x : R) :
  (lo <= hi)%Z ->
  (lo <= Math_round (Rmax (IZR lo) (Rmin (IZR hi) x)) <= hi)%Z.
Proof.
  intros Hle. apply Math_round_bounds, Rmax_Rmin_bounds, IZR_le, Hle.
Qed.

End Rounding.

(** ** The scoring functions *)

Section ScoringProperties.
Import WebcamComponent.

Lemma calculateRawFundabilityScore_percent (d : FaceDetectionResult) :
  percent (calculateRawFundabilityScore d).
Proof.
  unfold percent, calculateRawFundabilityScore; cbv zeta.
  apply (round_clamp_bounds 0 100). lia.
Qed.

Lemma calculateAttributes_percent (d : FaceDetectionResult) :
  percentAttributes (calculateAttributes d).
Proof.
  unfold percentAttributes, percent, calculateAttributes; cbv zeta; simpl.
  repeat split; apply (round_clamp_bounds 0 100); lia.
Qed.

Lemma calculateDeterministicTargetScore_range
    (initialScore : Z) (d : FaceDetectionResult) :
  (15 <= calculateDeterministicTargetScore initialScore d <= 90)%Z.
Proof.
  unfold calculateDeterministicTargetScore; cbv zeta.
  apply (round_clamp_bounds 15 90). lia.
Qed.

Lemma calculateDeterministicAttributeTargets_range
    (initialAttrs : FundabilityAttributes) (d : FaceDetectionResult) :
  let t := calculateDeterministicAttributeTargets initialAttrs d in
  (10 <= charisma t <= 95)%Z /\ (5 <= dumbness t <= 90)%Z /\
  (15 <= single t <= 95)%Z.
Proof.
  unfold calculateDeterministicAttributeTargets; cbv zeta; simpl.
  split; [| split].
  - apply (round_clamp_bounds 10 95). lia.
  - apply (round_clamp_bounds 5 90). lia.
  - apply (round_clamp_bounds 15 95). lia.
Qed.

Lemma targetScore_percent (initialScore : Z) (d : FaceDetectionResult) :
  percent (calculateDeterministicTargetScore initialScore d).
Proof.
  pose proof (calculateDeterministicTargetScore_range initialScore d).
  unfold percent. lia.
Qed.

Lemma targetAttributes_percent (initialAttrs : FundabilityAttributes)
    (d : FaceDetectionResult) :
  percentAttributes (calculateDeterministicAttributeTargets initialAttrs d).
Proof.
  pose proof (calculateDeterministicAttributeTargets_range initialAttrs d)
    as (Hc & Hd & Hs).
  unfold percentAttributes, percent. repeat split; lia.
Qed.

End ScoringProperties.

(** ** Bounds on [PI] and on the sine of the scenario's seed *)

Section Trigonometry.
Local Open Scope R_scope.

Lemma PI_bounds : 31415 / 10000 < PI < 31421 / 10000.
Proof.
  destruct (Machin.PI_2_3_7_ineq 1) as [Hlo Hhi].
  unfold Machin.PI_2_3_7_tg, tg_alt, Ratan_seq in Hlo, Hhi.
  simpl in Hlo, Hhi.
  split; lra.
Qed.

(** The seed of the scenario is 132.5, which is 42 PI plus an angle between
    0.5 and 0.6. *)
Lemma sin_scenario_seed : 4 / 10 < sin (265 / 2) < 6 / 10.
Proof.
  destruct PI_bounds as [Hlo Hhi].
  replace (265 / 2) with ((265 / 2 - 42 * PI) + 2 * INR 21 * PI)
    by (simpl; lra).
  rewrite sin_period.
  set (x := 265 / 2 - 42 * PI).
  assert (Hx : 5 / 10 <= x <= 6 / 10) by (unfold x; lra).
  split.
  - apply Rlt_le_trans with (sin (5 / 10)).
    + destruct (SIN (5 / 10)) as [H _]; [lra | lra |].
      unfold sin_lb, sin_approx, sin_term in H. simpl in H. lra.
    + apply sin_incr_1; lra.
  - apply Rle_lt_trans with (sin (6 / 10)).
    + apply sin_incr_1; lra.
    + apply sin_lt_x. lra.
Qed.

End Trigonometry.

Section RawScoreScenario.
Import WebcamComponent.
Local Open Scope R_scope.

Lemma exampleSnapshot_score : calculateRawFundabilityScore exampleSnapshot = 73%Z.
Proof.
  unfold calculateRawFundabilityScore, exampleSnapshot; cbv zeta; simpl.
  replace (9 / 10 * 100 + 8 / 10 * 50 + 1 / 10 * 25) with (265 / 2) by lra.
  destruct sin_scenario_seed as [Hlo Hhi].
  apply Math_round_unique.
  rewrite Rmax_Rmin_inside; lra.
Qed.

Section RawScoreBinary64.
Import Floats.
Local Open Scope float_scope.

Lemma mildSurprise_valid : validSnapshotF mildSurprise.
Proof.
  unfold validSnapshotF, probabilityF, mildSurprise; simpl.
  split; [vm_compute; reflexivity |].
  split; [vm_compute; reflexivity |].
  split; [vm_compute; reflexivity |].
  split; [vm_compute; reflexivity |].
  split; [vm_compute; reflexivity |].
  split; [vm_compute; reflexivity |].
  split; vm_compute; reflexivity.
Qed.

(** C4, the claim as worded fails.  On a snapshot of the declared domain
    (surprised 0.51, sad 0.03, angry 0.04, everything else 0), with any
    sine that maps 0 to 0, the code returns 3 and the flat formula of the
    claim 4: the code subtracts the sum of the two penalties, 1.6, from
    the bonus 5.1 and gets 3.4999999999999996, whereas the flat formula
    subtracts 0.6 and then 1 and gets 3.5. *)
Lemma rawScore_flat_formula_differs :
  validSnapshotF mildSurprise /\
  forall Math_sin : float -> float,
    Math_sin 0 = 0 ->
    Binary64.calculateRawFundabilityScore Math_sin mildSurprise = 3 /\
    rawScore_flat Math_sin mildSurprise = 4.
Proof.
  split; [exact mildSurprise_valid |].
  intros Math_sin H0.
  unfold Binary64.calculateRawFundabilityScore, rawScore_flat, mildSurprise;
    cbv zeta.
  cbn [Binary64.score Binary64.expressions Binary64.neutral Binary64.happy
       Binary64.sad Binary64.angry Binary64.surprised].
  change (0 * 100 + 0 * 50 + 0 * 25) with 0.
  rewrite H0.
  split; vm_compute; reflexivity.
Qed.

(** C4, amended.  On every snapshot the raw score is the formula with the
    bonus and the penalty each summed first, every operation in binary64:
    round(clamp(confidence*50 + (happy*30 + neutral*15 + surprised*10)
    - (sad*20 + angry*25) + sin(confidence*100 + happy*50 + neutral*25)*5,
    0, 100)).  On the scenario snapshot (confidence 0.9, happy 0.8, neutral
    0.1) the seed is 132.5 and the raw score is 73, for a sine that returns
    at 132.5 the binary64 number nearest to the real sine or one of its two
    neighbours; 73 is also the value over the reals. *)
Theorem rawScore_grouped_formula :
  (forall (Math_sin : float -> float) (d : Binary64.FaceDetectionResult),
     Binary64.calculateRawFundabilityScore Math_sin d =
     rawScore_grouped Math_sin d) /\
  (forall Math_sin : float -> float,
     In (Math_sin 132.5) sineOfScenario ->
     Binary64.calculateRawFundabilityScore Math_sin scenarioF = 73) /\
  validSnapshotF scenarioF /\
  WebcamComponent.calculateRawFundabilityScore exampleSnapshot = 73%Z.
Proof.
  split; [intros Math_sin d; reflexivity |].
  split.
  - intros Math_sin H.
    unfold Binary64.calculateRawFundabilityScore, scenarioF; cbv zeta.
    cbn [Binary64.score Binary64.expressions Binary64.neutral Binary64.happy
         Binary64.sad Binary64.angry Binary64.surprised].
    change (0x1.ccccccccccccdp-1 * 100 + 0x1.999999999999ap-1 * 50
            + 0x1.999999999999ap-4 * 25) with 132.5.
    destruct H as [<- | [<- | [<- | []]]]; vm_compute; reflexivity.
  - split; [| exact exampleSnapshot_score].
    unfold validSnapshotF, probabilityF, scenarioF; simpl.
    split; [vm_compute; reflexivity |].
    split; [vm_compute; reflexivity |].
    split; [vm_compute; reflexivity |].
    split; [vm_compute; reflexivity |].
    split; [vm_compute; reflexivity |].
    split; [vm_compute; reflexivity |].
    split; vm_compute; reflexivity.
Qed.

Lemma rawScore_grouped_formula_witness :
  In ((fun _ : float => 0x1.0cf8af48cf425p-1) 132.5) sineOfScenario /\
  Binary64.calculateRawFundabilityScore
    (fun _ : float => 0x1.0cf8af48cf425p-1) scenarioF = 73.
Proof.
  split.
  - right. left. reflexivity.
  - apply (proj1 (proj2 rawScore_grouped_formula)).
    right. left. reflexivity.
Defined.

End RawScoreBinary64.

(** C6.  Whatever the initial score and the snapshot, the projected target
    score lies in [15,90]; whatever the initial attributes and the snapshot,
    the projected target attributes lie in charisma [10,95], dumbness [5,90]
    and single [15,95]. *)
Theorem target_clamps :
  forall (initialScore : Z) (initialAttrs : FundabilityAttributes)
         (d : FaceDetectionResult),
    (15 <= calculateDeterministicTargetScore initialScore d <= 90)%Z /\
    (10 <= charisma (calculateDeterministicAttributeTargets initialAttrs d)
        <= 95)%Z /\
    (5 <= dumbness (calculateDeterministicAttributeTargets initialAttrs d)
       <= 90)%Z /\
    (15 <= single (calculateDeterministicAttributeTargets initialAttrs d)
        <= 95)%Z.
Proof.
  intros initialScore initialAttrs d.
  split.
  - apply calculateDeterministicTargetScore_range.
  - apply calculateDeterministicAttributeTargets_range.
Qed.

End RawScoreScenario.

(** ** The feedback table *)

Section Feedback.
Import WebcamComponent.

Lemma inBand_spec (s : Z) (fb : FeedbackBand) :
  inBand s fb = true <-> containsScore fb s.
Proof.
  unfold inBand, containsScore.
  rewrite andb_true_iff, Z.geb_le, Z.leb_le. reflexivity.
Qed.

(** [find] returns the first element that passes the test. *)
Lemma find_first {A : Type} (f : A -> bool) (l : list A) (x : A) :
  find f l = Some x ->
  exists before after : list A,
    l = before ++ x :: after /\ f x = true /\
    Forall (fun b => f b = false) before.
Proof.
  induction l as [| a l IH]; simpl; [discriminate |].
  destruct (f a) eqn:Ha.
  - intros [= ->]. exists [], l. auto.
  - intros H. destruct (IH H) as (before & after & -> & Hx & Hb).
    exists (a :: before), after. auto.
Qed.

Lemma feedbackMessages_cover (s : Z) :
  (0 <= s <= 100)%Z ->
  exists fb, find (inBand s) feedbackMessages = Some fb.
Proof.
  intros Hs.
  destruct (find (inBand s) feedbackMessages) as [fb |] eqn:Hfind;
    [exists fb; reflexivity | exfalso].
  pose proof (find_none _ _ Hfind) as Hnone.
  assert (Hall : Forall (fun fb => ~ containsScore fb s) feedbackMessages).
  { apply Forall_forall. intros fb Hin Hc.
    apply inBand_spec in Hc. rewrite (Hnone fb Hin) in Hc. discriminate. }
  unfold feedbackMessages, containsScore in Hall.
  repeat match goal with
         | H : Forall _ (_ :: _) |- _ => inversion H; subst; clear H
         end.
  simpl in *. lia.
Qed.

Lemma feedbackMessages_spoken :
  Forall (fun fb => message fb <> EmptyString /\
                    message fb <> "Analyzing..."%string) feedbackMessages.
Proof.
  unfold feedbackMessages.
  repeat constructor; simpl; discriminate.
Qed.

(** C9.  The table has six bands that follow each other from 0 to 100, and
    for every integer score between 0 and 100 the text that
    [getFeedbackMessage] returns is the message of the first band whose
    range contains the score; it is never the default "Analyzing...". *)
Theorem feedback_first_band :
  List.length feedbackMessages = 6%nat /\
  contiguous 0 100 feedbackMessages = true /\
  forall s : Z,
    (0 <= s <= 100)%Z ->
    exists fb : FeedbackBand,
      firstBand s fb /\
      getFeedbackMessage s = message fb /\
      getFeedbackMessage s <> "Analyzing..."%string.
Proof.
  split; [reflexivity | split; [reflexivity |]].
  intros s Hs.
  destruct (feedbackMessages_cover s Hs) as [fb Hfind].
  exists fb.
  destruct (find_first _ _ _ Hfind) as (before & after & Heq & Hin & Hbefore).
  assert (Hmsg : message fb <> EmptyString /\
                 message fb <> "Analyzing..."%string).
  { pose proof feedbackMessages_spoken as Hall.
    rewrite Forall_forall in Hall. apply Hall.
    rewrite Heq. apply in_elt. }
  assert (Hget : getFeedbackMessage s = message fb).
  { unfold getFeedbackMessage. rewrite Hfind.
    destruct (message fb); [destruct Hmsg as [H _]; now elim H | reflexivity]. }
  split; [| split].
  - exists before, after. split; [exact Heq | split].
    + apply inBand_spec, Hin.
    + eapply Forall_impl; [| exact Hbefore].
      intros b Hb Hc. apply inBand_spec in Hc. congruence.
  - exact Hget.
  - rewrite Hget. apply Hmsg.
Qed.

Lemma feedback_first_band_witness :
  (0 <= 73 <= 100)%Z /\
  exists fb : FeedbackBand,
    firstBand 73 fb /\
    getFeedbackMessage 73 = message fb /\
    getFeedbackMessage 73 <> "Analyzing..."%string.
Proof.
  split; [lia |].
  apply (proj2 (proj2 feedback_first_band) 73%Z). lia.
Defined.

End Feedback.

(** ** The sampling session *)

Section SessionProperties.
Import WebcamComponent.

(** *** One run of the interval callback *)

Lemma tick_noDetection (c : State) (currentTime : Z) (p : Poll) (s : Store) :
  noDetection p -> tick c currentTime p s = (s, []).
Proof.
  destruct p as [| | startTime [| person ds]]; simpl; intros H;
    [reflexivity | reflexivity | reflexivity | contradiction].
Qed.

Lemma tick_finalScoreCalculated (c : State) (currentTime : Z) (p : Poll)
    (s : Store) :
  finalScoreCalculated c = true -> tick c currentTime p s = (s, []).
Proof.
  intros Hc.
  destruct p as [| | startTime [| person ds]]; simpl; try reflexivity.
  rewrite Hc. reflexivity.
Qed.

Lemma interpolateAttributes_0 (a b : FundabilityAttributes) :
  interpolateAttributes a b 0 = a.
Proof.
  destruct a as [ca da sa]. unfold interpolateAttributes; simpl.
  rewrite !Rmult_0_r, !Rplus_0_r, !Math_round_IZR. reflexivity.
Qed.

Lemma progress_0 : Rmin 1 (IZR 0 / IZR ANALYSIS_DURATION_MS) = 0%R.
Proof.
  unfold ANALYSIS_DURATION_MS.
  replace (0 / 5000)%R with 0%R by lra.
  apply Rmin_right. lra.
Qed.

(** The callback of a render that read no start time: whatever the store
    holds, a detection makes it run the initialisation block again, measure
    an elapsed time of 0 and send the raw values of this very detection as a
    non-final update. *)
Lemma tick_firstRender (currentTime startTime : Z)
    (person : FaceDetectionResult) (ds : list FaceDetectionResult)
    (s : Store) :
  tick firstRender currentTime (Detections startTime (person :: ds)) s =
  (initialise startTime person s, [initialUpdate person]).
Proof.
  unfold tick, firstRender, orCurrentTime; simpl.
  rewrite Z.sub_diag; simpl.
  rewrite progress_0, Rmult_0_r, Rplus_0_r, interpolateAttributes_0.
  assert (Hraw : Math_round
            (Rmax 0 (Rmin 100 (IZR (calculateRawFundabilityScore person)))) =
          calculateRawFundabilityScore person).
  { destruct (calculateRawFundabilityScore_percent person) as [Hlo Hhi].
    rewrite Rmax_Rmin_inside; [apply Math_round_IZR |].
    split; apply IZR_le; assumption. }
  rewrite Hraw. reflexivity.
Qed.

(** *** The closures of the component *)

Lemma closuresOfFirstRender_mount : closuresOfFirstRender mount.
Proof.
  unfold closuresOfFirstRender, mount; simpl.
  repeat split; intros; discriminate.
Qed.

Ltac closures Hpre :=
  unfold closuresOfFirstRender; simpl;
  repeat match goal with |- _ /\ _ => split end;
  intros;
  try match goal with
      | H : _ = false |- _ =>
        destruct (Hpre H) as (? & ? & ?)
      end;
  try discriminate; try congruence; auto.

Lemma closuresOfFirstRender_step (w : Component) (e : Event) :
  closuresOfFirstRender w -> closuresOfFirstRender (fst (step w e)).
Proof.
  intros (Hpre & Hplay & Hint).
  destruct e as [v | present | currentTime p]; simpl.
  - destruct (isModelLoaded w) eqn:Hloaded; simpl.
    + closures Hpre.
    + destruct (Hpre eq_refl) as (Hstate & Hnol & Hnoi).
      destruct v; closures Hpre.
  - destruct (playListener w) as [c |] eqn:Hl; simpl.
    + pose proof (Hplay c eq_refl) as ->.
      destruct present; closures Hpre.
    + closures Hpre.
  - destruct (detectionInterval w) as [c |] eqn:Hi; simpl.
    + destruct (tick c currentTime p (store w)) as [s out].
      closures Hpre.
    + closures Hpre.
Qed.

Lemma run_cons (w : Component) (e : Event) (es : list Event) :
  run w (e :: es) =
  (fst (run (fst (step w e)) es),
   snd (step w e) ++ snd (run (fst (step w e)) es)).
Proof.
  simpl. destruct (step w e) as [w1 out1]; simpl.
  destruct (run w1 es) as [w2 out2]. reflexivity.
Qed.

Lemma closuresOfFirstRender_run (es : list Event) (w : Component) :
  closuresOfFirstRender w -> closuresOfFirstRender (fst (run w es)).
Proof.
  revert w. induction es as [| e es IH]; intros w Hw; [exact Hw |].
  rewrite run_cons; simpl.
  apply IH, closuresOfFirstRender_step, Hw.
Qed.

Lemma reachable_closures (w : Component) :
  reachable w -> closuresOfFirstRender w.
Proof.
  intros [es <-].
  apply closuresOfFirstRender_run, closuresOfFirstRender_mount.
Qed.

(** *** What the component sends *)

(** Every update sent by a step from such a state is the initial update of
    the detection it has just polled. *)
Lemma step_sends_initialUpdate (w : Component) (e : Event) :
  closuresOfFirstRender w ->
  Forall (fun u => exists person, u = initialUpdate person) (snd (step w e)).
Proof.
  intros (_ & _ & Hint).
  destruct e as [v | present | currentTime p]; unfold step.
  - destruct (isModelLoaded w); [constructor |].
    destruct v; constructor.
  - destruct (playListener w); constructor.
  - destruct (detectionInterval w) as [c |] eqn:Hi; [| constructor].
    rewrite (Hint c eq_refl).
    destruct p as [| | startTime [| person ds]];
      try (rewrite tick_noDetection by exact I; constructor).
    rewrite tick_firstRender; simpl.
    constructor; [exists person; reflexivity | constructor].
Qed.

Lemma run_sends_initialUpdate (es : list Event) (w : Component) :
  closuresOfFirstRender w ->
  Forall (fun u => exists person, u = initialUpdate person) (snd (run w es)).
Proof.
  revert w. induction es as [| e es IH]; intros w Hw; [constructor |].
  rewrite run_cons; simpl.
  apply Forall_app. split.
  - apply step_sends_initialUpdate, Hw.
  - apply IH, closuresOfFirstRender_step, Hw.
Qed.

(** No sequence of events makes the component send a final update. *)
Lemma run_never_final (es : list Event) :
  Forall (fun u => isFinal u = false) (snd (run mount es)).
Proof.
  eapply Forall_impl;
    [| apply run_sends_initialUpdate, closuresOfFirstRender_mount].
  intros u [person ->]. reflexivity.
Qed.

Lemma initialUpdate_percent (person : FaceDetectionResult) :
  percentUpdate (initialUpdate person).
Proof.
  split; simpl.
  - apply calculateRawFundabilityScore_percent.
  - apply calculateAttributes_percent.
Qed.

End SessionProperties.

(** ** The session on its scenarios *)

Section SessionClaims.
Import WebcamComponent.

Lemma step_tick_firstRender (w : Component) (currentTime startTime : Z)
    (person : FaceDetectionResult) (ds : list FaceDetectionResult) :
  detectionInterval w = Some firstRender ->
  step w (Tick currentTime (Detections startTime (person :: ds))) =
  ({| isModelLoaded := isModelLoaded w;
      store := initialise startTime person (store w);
      playListener := playListener w;
      detectionInterval := detectionInterval w |},
   [initialUpdate person]).
Proof.
  intros Hi. unfold step. rewrite Hi, tick_firstRender. reflexivity.
Qed.

(** While the same face is detected, the component keeps sending the same
    initial update and never writes [finalScoreCalculated]. *)
Lemma run_detections (person : FaceDetectionResult) (es : list Event) :
  forall w : Component,
    detectionInterval w = Some firstRender ->
    finalScoreCalculated (state (store w)) = false ->
    Forall (fun e => exists t st ds,
                e = Tick t (Detections st (person :: ds))) es ->
    snd (run w es) = repeat (initialUpdate person) (List.length es) /\
    finalScoreCalculated (state (store (fst (run w es)))) = false /\
    refs (store (fst (run w es))) =
      match es with [] => refs (store w) | _ => capturedFrom person end.
Proof.
  induction es as [| e es IH]; intros w Hi Hf Hall.
  - simpl. auto.
  - inversion Hall as [| e' es' (t & st & ds & ->) Hrest]; subst.
    rewrite run_cons, step_tick_firstRender by exact Hi.
    cbn [fst snd].
    destruct (IH {| isModelLoaded := isModelLoaded w;
                    store := initialise st person (store w);
                    playListener := playListener w;
                    detectionInterval := detectionInterval w |})
      as (Hout & Hflag & Hrefs); [exact Hi | exact Hf | exact Hrest |].
    rewrite Hout, Hflag, Hrefs.
    repeat split. destruct es; reflexivity.
Qed.

Lemma continuousDetections_shape (t0 : Z) (person : FaceDetectionResult)
    (n : nat) :
  Forall (fun e => exists t st ds,
              e = Tick t (Detections st (person :: ds)))
         (continuousDetections t0 person n).
Proof.
  unfold continuousDetections. apply Forall_forall.
  intros e Hin. apply in_map_iff in Hin. destruct Hin as (k & <- & _).
  eauto.
Qed.

Lemma continuousDetections_length (t0 : Z) (person : FaceDetectionResult)
    (n : nat) :
  List.length (continuousDetections t0 person n) = n.
Proof.
  unfold continuousDetections. rewrite length_map. apply length_seq.
Qed.

Lemma run_after_load (es : list Event) :
  fst (run mount (ModelsLoaded Ready :: es)) = fst (run started es) /\
  snd (run mount (ModelsLoaded Ready :: es)) = snd (run started es).
Proof. rewrite run_cons. split; reflexivity. Qed.

(** C1.  The defect, on the scenario of the claim.  The interval callback
    is a closure of the first render, where [analysisStartTime] is [null]:
    it measures an elapsed time of 0 on every tick.  Over the five-second
    session the component calls [onScoreUpdate] 51 times, each time with
    isFinal = false and the raw values of the current detection; the tick
    that comes 5000 ms after the first detection is no exception, and
    [finalScoreCalculated] is never written.  No sequence of events at all
    produces a final update. *)
Theorem session_never_finalizes :
  snd (run mount fiveSecondSession) = repeat (initialUpdate exampleSnapshot) 51 /\
  Forall (fun u => isFinal u = false) (snd (run mount fiveSecondSession)) /\
  finalScoreCalculated (state (store (fst (run mount fiveSecondSession)))) = false /\
  forall es : list Event,
    Forall (fun u => isFinal u = false) (snd (run mount es)).
Proof.
  assert (Hrun : snd (run mount fiveSecondSession) =
                   repeat (initialUpdate exampleSnapshot) 51 /\
                 finalScoreCalculated
                   (state (store (fst (run mount fiveSecondSession)))) = false).
  { unfold fiveSecondSession.
    destruct (run_after_load (continuousDetections 1000 exampleSnapshot 51))
      as [-> ->].
    destruct (run_detections exampleSnapshot
                (continuousDetections 1000 exampleSnapshot 51) started)
      as (Hout & Hflag & _);
      [reflexivity | reflexivity | apply continuousDetections_shape |].
    rewrite continuousDetections_length in Hout. auto. }
  destruct Hrun as [Hout Hflag].
  split; [| split; [| split]].
  - exact Hout.
  - apply run_never_final.
  - exact Hflag.
  - apply run_never_final.
Qed.

(** *** Recomputation *)

Lemma neutralSnapshot_score :
  (calculateRawFundabilityScore neutralSnapshot <= 65)%Z.
Proof.
  unfold calculateRawFundabilityScore, neutralSnapshot; cbv zeta; simpl.
  match goal with |- context [sin ?x] =>
    destruct (SIN_bound x) as [Hlo Hhi]; set (v := sin x) in *
  end.
  apply Math_round_bounds with (lo := 0%Z).
  rewrite Rmax_Rmin_inside; lra.
Qed.

Lemma capturedFrom_differ :
  capturedFrom exampleSnapshot <> capturedFrom neutralSnapshot.
Proof.
  intros H.
  assert (Heq : calculateRawFundabilityScore exampleSnapshot =
                calculateRawFundabilityScore neutralSnapshot).
  { unfold capturedFrom in H. congruence. }
  pose proof neutralSnapshot_score. rewrite <- Heq, exampleSnapshot_score in *.
  lia.
Qed.

(** C2.  The defect, on two ticks.  A first tick detects the scenario
    snapshot and a second tick, 100 ms later, a different one: the second
    tick runs the initialisation block again, so the four refs then hold
    the initial and target values of the second snapshot, which are not
    those captured on the first tick, and the update it sends carries the
    raw values of the second snapshot instead of an interpolation from the
    first pair. *)
Theorem targets_recomputed_on_later_tick :
  let r1 := step started (Tick 1000 (Detections 1040 [exampleSnapshot])) in
  let r2 := step (fst r1) (Tick 1100 (Detections 1140 [neutralSnapshot])) in
  refs (store (fst r1)) = capturedFrom exampleSnapshot /\
  snd r1 = [initialUpdate exampleSnapshot] /\
  refs (store (fst r2)) = capturedFrom neutralSnapshot /\
  snd r2 = [initialUpdate neutralSnapshot] /\
  capturedFrom exampleSnapshot <> capturedFrom neutralSnapshot /\
  newScore (initialUpdate exampleSnapshot) = 73%Z /\
  (newScore (initialUpdate neutralSnapshot) <= 65)%Z.
Proof.
  cbv zeta.
  rewrite !step_tick_firstRender by reflexivity.
  cbn [fst snd store refs initialise setRefs].
  repeat split.
  - exact capturedFrom_differ.
  - exact exampleSnapshot_score.
  - exact neutralSnapshot_score.
Qed.

(** *** After finalization *)



End SessionClaims.

(** ** The 0..100 domain of what is sent *)

Section Domain.
Import WebcamComponent.

Lemma capturedFrom_percent (person : FaceDetectionResult) :
  percentRefs (capturedFrom person).
Proof.
  unfold percentRefs, capturedFrom; simpl.
  split; [| split; [| split]]; intros ? [= <-].
  - apply calculateRawFundabilityScore_percent.
  - apply targetScore_percent.
  - apply calculateAttributes_percent.
  - apply targetAttributes_percent.
Qed.

Lemma interpolate_percent (a b : Z) (p : R) :
  percent a -> percent b -> (0 <= p <= 1)%R ->
  percent (Math_round (IZR a + (IZR b - IZR a) * p)).
Proof.
  unfold percent. intros [Ha0 Ha1] [Hb0 Hb1] [Hp0 Hp1].
  apply IZR_le in Ha0, Ha1, Hb0, Hb1.
  apply Math_round_bounds. split; nra.
Qed.

Lemma interpolateAttributes_percent (a b : FundabilityAttributes) (p : R) :
  percentAttributes a -> percentAttributes b -> (0 <= p <= 1)%R ->
  percentAttributes (interpolateAttributes a b p).
Proof.
  intros (Hc & Hd & Hs) (Hc' & Hd' & Hs') Hp.
  unfold percentAttributes, interpolateAttributes; simpl.
  repeat split; apply interpolate_percent; assumption.
Qed.

Lemma progress_unit (timeElapsed : Z) :
  (0 <= timeElapsed)%Z ->
  (0 <= Rmin 1 (IZR timeElapsed / IZR ANALYSIS_DURATION_MS) <= 1)%R.
Proof.
  intros H. apply IZR_le in H. unfold ANALYSIS_DURATION_MS.
  split.
  - apply Rmin_glb; [lra |].
    apply Rmult_le_pos; [exact H | lra].
  - apply Rmin_l.
Qed.

(** Whatever the closure, if the refs hold values of the domain and the
    clock has not gone back behind the start time the closure reads, both
    the interpolated and the final update of a tick are in the domain. *)
Lemma tick_percent (c : State) (currentTime : Z) (p : Poll) (s : Store) :
  percentRefs (refs s) ->
  (0 <= currentTime - orCurrentTime (analysisStartTime c) currentTime)%Z ->
  Forall percentUpdate (snd (tick c currentTime p s)).
Proof.
  intros Hrefs Hclock.
  destruct p as [| | startTime [| person ds]]; try (constructor; fail).
  unfold tick.
  destruct (finalScoreCalculated c); [constructor |].
  set (s1 := match analysisStartTime c with
             | Some _ => s
             | None => initialise startTime person s
             end).
  assert (H1 : percentRefs (refs s1)).
  { unfold s1. destruct (analysisStartTime c); [exact Hrefs |].
    apply capturedFrom_percent. }
  destruct H1 as (Hi & Ht & Hia & Hta).
  set (timeElapsed :=
         (currentTime - orCurrentTime (analysisStartTime c) currentTime)%Z)
    in *.
  destruct (timeElapsed >=? ANALYSIS_DURATION_MS)%Z.
  - cbn [snd]. constructor; [| constructor]. split; cbn.
    + destruct (finalAnimatedTargetScoreRef (refs s1)) as [v |];
        [apply Ht; reflexivity | apply calculateRawFundabilityScore_percent].
    + destruct (finalAttributesRef (refs s1)) as [a |];
        [apply Hta; reflexivity | apply calculateAttributes_percent].
  - destruct (initialAnimatedScoreRef (refs s1)) as [i |]; [| constructor].
    destruct (finalAnimatedTargetScoreRef (refs s1)) as [t |]; [| constructor].
    destruct (initialAttributesRef (refs s1)) as [ia |]; [| constructor].
    destruct (finalAttributesRef (refs s1)) as [ta |]; [| constructor].
    cbn [snd]. constructor; [| constructor]. split; cbn.
    + apply (round_clamp_bounds 0 100). lia.
    + apply interpolateAttributes_percent;
        [apply Hia | apply Hta | apply progress_unit, Hclock]; reflexivity.
Qed.

(** C5.  On every snapshot of the declared domain the raw score and the
    three raw attributes are integers between 0 and 100; every score and
    attribute value the component ever passes to [onScoreUpdate] is
    between 0 and 100; and so is every value sent by one run of the
    interval callback, interpolated or final, from refs that hold values of
    the domain. *)
Theorem emitted_values_in_domain :
  (forall d : FaceDetectionResult,
     validSnapshot d ->
     percent (calculateRawFundabilityScore d) /\
     percentAttributes (calculateAttributes d)) /\
  (forall es : list Event, Forall percentUpdate (snd (run mount es))) /\
  (forall (c : State) (currentTime : Z) (p : Poll) (s : Store),
     percentRefs (refs s) ->
     (0 <= currentTime - orCurrentTime (analysisStartTime c) currentTime)%Z ->
     Forall percentUpdate (snd (tick c currentTime p s))).
Proof.
  split; [| split].
  - intros d _. split.
    + apply calculateRawFundabilityScore_percent.
    + apply calculateAttributes_percent.
  - intros es.
    eapply Forall_impl;
      [| apply run_sends_initialUpdate, closuresOfFirstRender_mount].
    intros u [person ->]. apply initialUpdate_percent.
  - exact tick_percent.
Qed.

Lemma emitted_values_in_domain_witness :
  validSnapshot exampleSnapshot /\
  percent (calculateRawFundabilityScore exampleSnapshot) /\
  percentAttributes (calculateAttributes exampleSnapshot) /\
  Forall percentUpdate
    (snd (tick {| analysisStartTime := Some 1040%Z;
                  finalScoreCalculated := false |}
               3000 (Detections 3040 [exampleSnapshot])
               {| state := firstRender;
                  refs := capturedFrom exampleSnapshot |})).
Proof.
  assert (H : validSnapshot exampleSnapshot).
  { unfold validSnapshot, probability, exampleSnapshot; simpl.
    repeat split; lra. }
  split; [exact H |].
  split; [exact (proj1 (proj1 emitted_values_in_domain exampleSnapshot H)) |].
  split; [exact (proj2 (proj1 emitted_values_in_domain exampleSnapshot H)) |].
  apply (proj2 (proj2 emitted_values_in_domain)).
  - apply capturedFrom_percent.
  - simpl. lia.
Defined.

End Domain.

(** ** Ticks without a detection *)

Section NoDetection.
Import WebcamComponent.

Lemma startFaceDetection_idle (c : State) (w : Component) :
  idle (store (startFaceDetection c true w)).
Proof. split; reflexivity. Qed.

Lemma step_quiet (w : Component) (e : Event) :
  idle (store w) -> quiet e ->
  idle (store (fst (step w e))) /\ snd (step w e) = [].
Proof.
  intros Hidle Hq.
  destruct e as [v | present | currentTime p]; unfold step.
  - destruct (isModelLoaded w); [split; auto |].
    destruct v; split; auto. apply startFaceDetection_idle.
  - destruct (playListener w) as [c |]; [| split; auto].
    destruct present; split; auto. apply startFaceDetection_idle.
  - destruct (detectionInterval w) as [c |]; [| split; auto].
    rewrite (tick_noDetection c currentTime p (store w) Hq). split; auto.
Qed.

Lemma run_quiet (es : list Event) (w : Component) :
  idle (store w) -> Forall quiet es ->
  idle (store (fst (run w es))) /\ snd (run w es) = [].
Proof.
  revert w. induction es as [| e es IH]; intros w Hidle Hall; [auto |].
  inversion Hall as [| e' es' He Hes]; subst.
  destruct (step_quiet w e Hidle He) as [Hidle1 Hout1].
  destruct (IH (fst (step w e)) Hidle1 Hes) as [Hidle2 Hout2].
  rewrite run_cons, Hout1, Hout2. auto.
Qed.

(** C8.  A run of the interval callback whose poll brings no detection
    (the inference throws, the list is empty) writes nothing and sends
    nothing, whatever the closure and the store.  Hence, as long as no tick
    brings a detection, the session has captured nothing, whatever else
    happens (models loading, the video playing), and [onScoreUpdate] is never
    called. *)
Theorem no_detection_no_transition :
  (forall (c : State) (currentTime : Z) (p : Poll) (s : Store),
     noDetection p -> tick c currentTime p s = (s, [])) /\
  (forall (w : Component) (currentTime : Z) (p : Poll),
     noDetection p -> step w (Tick currentTime p) = (w, [])) /\
  (forall es : list Event,
     Forall quiet es ->
     idle (store (fst (run mount es))) /\ snd (run mount es) = []).
Proof.
  split; [exact tick_noDetection | split].
  - intros w currentTime p Hp. unfold step.
    destruct (detectionInterval w) as [c |] eqn:Hi; [| reflexivity].
    rewrite (tick_noDetection c currentTime p (store w) Hp).
    destruct w; simpl in *. rewrite Hi. reflexivity.
  - intros es Hall. apply run_quiet; [split; reflexivity | exact Hall].
Qed.

Lemma no_detection_no_transition_witness :
  Forall quiet fiveSecondsWithoutFace /\
  idle (store (fst (run mount fiveSecondsWithoutFace))) /\
  snd (run mount fiveSecondsWithoutFace) = [].
Proof.
  assert (H : Forall quiet fiveSecondsWithoutFace).
  { unfold fiveSecondsWithoutFace. simpl. repeat constructor. }
  split; [exact H |].
  exact (proj2 (proj2 no_detection_no_transition) fiveSecondsWithoutFace H).
Defined.

End NoDetection.

(** ** The consumer callback *)

Section Consumer.
Import WebcamComponent.

(** C10, as stated, fails on a render in which the analysis is already
    complete: the guard at the head of [handleScoreUpdate] returns before
    anything is written, so a final update with score 60 and no attributes
    leaves the stored score at 50. *)
Lemma final_update_after_completion_ignored :
  isFinal final60 = true /\
  newAttributes final60 = None /\
  App.score (App.handleScoreUpdate completedAt50 final60 completedAt50) =
    Some 50%Z /\
  ~ locksWithoutAttributes completedAt50 final60 completedAt50.
Proof.
  repeat split.
  intros (_ & Hscore & _). simpl in Hscore. discriminate.
Qed.

(** C10, amended.  When the [handleScoreUpdate] of a render in which the
    analysis is not yet complete receives a final update without the
    optional attributes, the analysis is marked complete, score and
    feedback (current and final) are set to the given values, and the
    stored current and final attributes are left as they were. *)
Theorem final_update_without_attributes :
  forall (render : App.AppState) (u : ScoreUpdate) (st : App.AppState),
    App.isAnalysisComplete render = false ->
    isFinal u = true ->
    newAttributes u = None ->
    locksWithoutAttributes render u st.
Proof.
  intros render u st Hrender Hfinal Hnone.
  unfold locksWithoutAttributes, App.handleScoreUpdate.
  rewrite Hrender, Hfinal, Hnone. simpl. repeat split.
Qed.

Lemma final_update_without_attributes_witness :
  locksWithoutAttributes App.initialState final60
    {| App.score := Some 57%Z;
       App.feedback := "Middle of the pack. Try adding glasses?";
       App.finalScore := None; App.finalFeedback := EmptyString;
       App.isAnalysisComplete := false;
       App.attributes :=
         Some {| charisma := 70; dumbness := 30; single := 45 |};
       App.finalAttributes := None |}.
Proof.
  apply final_update_without_attributes; reflexivity.
Defined.

End Consumer.

(** ** The presentation animator: the transition of the score *)

Section AnimatorBookkeeping.
Import ScoreDisplay.

Lemma noScoreTransition_designated r q :
  noScoreTransition q -> designated r q.
Proof.
  unfold noScoreTransition, designated. apply Forall_impl.
  intros hc H1 H2. congruence.
Qed.

Lemma designated_None q : designated None q -> noScoreTransition q.
Proof.
  unfold noScoreTransition, designated. apply Forall_impl.
  intros hc H. destruct (isAnimate (snd hc)); [| reflexivity].
  specialize (H eq_refl). discriminate.
Qed.

Lemma designated_cancel h q :
  designated (Some h) q ->
  noScoreTransition (filter (fun x => negb (Nat.eqb (fst x) h)) q).
Proof.
  unfold designated, noScoreTransition. intros H.
  apply Forall_forall. intros hc Hin. apply filter_In in Hin.
  destruct Hin as [Hin Hne].
  rewrite Forall_forall in H. specialize (H hc Hin).
  destruct (isAnimate (snd hc)); [| reflexivity].
  specialize (H eq_refl). injection H as ->.
  rewrite Nat.eqb_refl in Hne. discriminate.
Qed.

(** Cancelling the designated handle removes every transition of the
    score. *)
Lemma cancelInFlight_noScoreTransition d :
  designated (animationFrameRef d) (frameQueue d) ->
  noScoreTransition (frameQueue (cancelInFlight d)).
Proof.
  unfold cancelInFlight. intros H.
  destruct (animationFrameRef d) as [h |].
  - simpl. apply designated_cancel, H.
  - apply designated_None, H.
Qed.

Lemma cancelInFlight_fields d :
  displayScore (cancelInFlight d) = displayScore d /\
  currentScoreRef (cancelInFlight d) = currentScoreRef d /\
  animationFrameRef (cancelInFlight d) = animationFrameRef d /\
  nextHandle (cancelInFlight d) = nextHandle d /\
  scoreCleanup (cancelInFlight d) = scoreCleanup d /\
  rendered (cancelInFlight d) = rendered d.
Proof.
  unfold cancelInFlight. destruct (animationFrameRef d) eqn:E; simpl;
    rewrite ?E; repeat (split; try reflexivity).
Qed.

Lemma filter_fresh n (f : nat * FrameCallback -> bool) q :
  freshHandles n q -> freshHandles n (filter f q).
Proof.
  unfold freshHandles. rewrite !Forall_forall. intros H x Hin.
  apply filter_In in Hin. apply H, Hin.
Qed.

Lemma filter_NoDup_fst (f : nat * FrameCallback -> bool) q :
  NoDup (map fst q) -> NoDup (map fst (filter f q)).
Proof.
  induction q as [| x q IH]; simpl; intros H; [constructor |].
  inversion H as [| a l Hnotin Hnd]; subst.
  destruct (f x); simpl; [constructor |]; auto.
  intros Hin. apply Hnotin.
  apply in_map_iff in Hin. destruct Hin as (y & Hy & Hin).
  apply filter_In in Hin. apply in_map_iff. exists y. tauto.
Qed.

Lemma cancelInFlight_fresh d :
  freshHandles (nextHandle d) (frameQueue d) ->
  NoDup (map fst (frameQueue d)) ->
  freshHandles (nextHandle (cancelInFlight d)) (frameQueue (cancelInFlight d)) /\
  NoDup (map fst (frameQueue (cancelInFlight d))).
Proof.
  unfold cancelInFlight. intros Hf Hn.
  destruct (animationFrameRef d); simpl; [| auto].
  split; [apply filter_fresh, Hf | apply filter_NoDup_fst, Hn].
Qed.

Lemma fresh_snoc n q cb :
  freshHandles n q -> freshHandles (S n) (q ++ [(n, cb)]).
Proof.
  unfold freshHandles. intros H. apply Forall_app. split.
  - eapply Forall_impl; [| exact H]. simpl. intros; lia.
  - constructor; [simpl; lia | constructor].
Qed.

Lemma NoDup_snoc n q (cb : FrameCallback) :
  freshHandles n q -> NoDup (map fst q) -> NoDup (map fst (q ++ [(n, cb)])).
Proof.
  intros Hf Hn. rewrite map_app. simpl.
  apply NoDup_app; [exact Hn | repeat constructor; simpl; tauto |].
  intros a Hin [<- | []].
  apply in_map_iff in Hin. destruct Hin as (y & Hy & Hin).
  unfold freshHandles in Hf. rewrite Forall_forall in Hf.
  specialize (Hf y Hin). lia.
Qed.

Lemma frame_callAll timestamp d :
  frame timestamp d =
  callAll timestamp (frameQueue d) (setFrameQueue [] (nextHandle d) d).
Proof. reflexivity. Qed.

(** One call of an attribute transition: the score, its ref and the
    designated handle are untouched; the queue gains at most one attribute
    transition. *)
Lemma call_animateAttributes timestamp st sv tv d :
  let d' := call timestamp (animateAttributes st sv tv) d in
  displayScore d' = displayScore d /\
  currentScoreRef d' = currentScoreRef d /\
  animationFrameRef d' = animationFrameRef d /\
  ((frameQueue d' = frameQueue d /\ nextHandle d' = nextHandle d) \/
   (exists cb, isAnimate cb = false /\
      frameQueue d' = frameQueue d ++ [(nextHandle d, cb)] /\
      nextHandle d' = S (nextHandle d))).
Proof.
  simpl. destruct (finished _ timestamp); simpl.
  - split; [reflexivity | split; [reflexivity | split; [reflexivity |]]].
    left. split; reflexivity.
  - split; [reflexivity | split; [reflexivity | split; [reflexivity |]]].
    right.
    exists (animateAttributes
              (Some match st with Some t => t | None => timestamp end) sv tv).
    split; [reflexivity | split; reflexivity].
Qed.

(** One call of a score transition: it ends and clears the ref, or queues
    its next frame and makes the ref designate it. *)
Lemma call_animate timestamp st sv tv d :
  let d' := call timestamp (animate st sv tv) d in
  (frameQueue d' = frameQueue d /\ nextHandle d' = nextHandle d /\
   animationFrameRef d' = None) \/
  (exists cb, frameQueue d' = frameQueue d ++ [(nextHandle d, cb)] /\
     nextHandle d' = S (nextHandle d) /\
     animationFrameRef d' = Some (nextHandle d)).
Proof.
  simpl. destruct (finished _ timestamp); simpl.
  - left. split; [reflexivity | split; reflexivity].
  - right.
    exists (animate
              (Some match st with Some t => t | None => timestamp end) sv tv).
    split; [reflexivity | split; reflexivity].
Qed.

Lemma designated_snoc r q h cb :
  isAnimate cb = false -> designated r q -> designated r (q ++ [(h, cb)]).
Proof.
  intros Hcb H. apply Forall_app. split; [exact H |].
  constructor; [simpl; congruence | constructor].
Qed.

Lemma noScoreTransition_snoc q h cb :
  isAnimate cb = false -> noScoreTransition q ->
  noScoreTransition (q ++ [(h, cb)]).
Proof.
  intros Hcb H. apply Forall_app. split; [exact H |].
  constructor; [exact Hcb | constructor].
Qed.

(** A queue with distinct handles holds at most one designated transition
    of the score: once it has been called, the rest of the frame holds
    none. *)
Lemma midFrame_call timestamp hc r d :
  midFrame (hc :: r) d -> midFrame r (call timestamp (snd hc) d).
Proof.
  intros (Hfresh & Hnd & Hndr & Hcases).
  inversion Hndr as [| h0 l0 Hnotin Hndr']; subst.
  destruct hc as [h [st sv tv | st sv tv]]; cbn [snd].
  - (* a score transition *)
    assert (Hrest : noScoreTransition r).
    { destruct Hcases as [[_ Hdes] | [Hno _]].
      - inversion Hdes as [| x l Hh Hdes']; subst. simpl in Hh.
        specialize (Hh eq_refl).
        apply Forall_forall. intros [h' cb'] Hin. simpl.
        destruct (isAnimate cb') eqn:Hcb; [exfalso | reflexivity].
        rewrite Forall_forall in Hdes'.
        specialize (Hdes' (h', cb') Hin Hcb). simpl in Hdes'.
        assert (h' = h) by congruence. subst h'.
        apply Hnotin. simpl. apply in_map_iff. exists (h, cb'). auto.
      - inversion Hno; assumption. }
    assert (Hq : noScoreTransition (frameQueue d)).
    { destruct Hcases as [[Hq _] | [Hno _]]; [exact Hq |].
      inversion Hno as [| x l Hx _]; subst. simpl in Hx. discriminate. }
    destruct (call_animate timestamp st sv tv d)
      as [(Eq & En & Er) | (cb & Eq & En & Er)];
      unfold midFrame; rewrite Eq, En, Er.
    + repeat split; auto. right. split; [exact Hrest |].
      apply noScoreTransition_designated, Hq.
    + repeat split; [apply fresh_snoc, Hfresh | apply NoDup_snoc; auto | auto |].
      right. split; [exact Hrest |].
      apply Forall_app. split.
      * apply noScoreTransition_designated, Hq.
      * constructor; [reflexivity | constructor].
  - (* an attribute transition *)
    destruct (call_animateAttributes timestamp st sv tv d)
      as (_ & _ & Er & [(Eq & En) | (cb & Hcb & Eq & En)]);
      unfold midFrame; rewrite Eq, En, Er.
    + repeat split; auto.
      destruct Hcases as [[Hq Hdes] | [Hno Hdes]]; [left | right]; split; auto.
      * inversion Hdes; assumption.
      * inversion Hno; assumption.
    + repeat split; [apply fresh_snoc, Hfresh | apply NoDup_snoc; auto | auto |].
      destruct Hcases as [[Hq Hdes] | [Hno Hdes]]; [left | right]; split.
      * apply noScoreTransition_snoc; assumption.
      * inversion Hdes; assumption.
      * inversion Hno; assumption.
      * apply designated_snoc; assumption.
Qed.

Lemma midFrame_callAll timestamp r :
  forall d, midFrame r d -> tracked (callAll timestamp r d).
Proof.
  induction r as [| hc r IH]; intros d H.
  - destruct H as (Hf & Hn & _ & [[Hq _] | [_ Hdes]]); simpl;
      repeat split; auto.
    apply noScoreTransition_designated, Hq.
  - simpl. apply IH, midFrame_call, H.
Qed.

Lemma tracked_frame timestamp d : tracked d -> tracked (frame timestamp d).
Proof.
  intros (Hf & Hn & Hdes).
  rewrite frame_callAll. apply midFrame_callAll.
  unfold midFrame; simpl.
  split; [constructor | split; [constructor | split; [exact Hn |]]].
  left. split; [constructor | exact Hdes].
Qed.

Lemma designated_filter r (f : nat * FrameCallback -> bool) q :
  designated r q -> designated r (filter f q).
Proof.
  unfold designated. rewrite !Forall_forall. intros H x Hin.
  apply filter_In in Hin. apply H, Hin.
Qed.

Lemma tracked_cancelInFlight d : tracked d -> tracked (cancelInFlight d).
Proof.
  intros (Hf & Hn & Hdes).
  destruct (cancelInFlight_fresh d Hf Hn) as [Hf' Hn'].
  split; [exact Hf' | split; [exact Hn' |]].
  unfold cancelInFlight in *. destruct (animationFrameRef d) eqn:E; simpl.
  - rewrite E. apply designated_filter, Hdes.
  - rewrite E. exact Hdes.
Qed.

Lemma tracked_scoreEffect p d : tracked d -> tracked (scoreEffect p d).
Proof.
  intros H. unfold scoreEffect.
  destruct (score p) as [s |]; [| exact H].
  destruct (isFinalized p).
  - assert (H' : tracked (cancelInFlight (showScore s d)))
      by (apply tracked_cancelInFlight; exact H).
    destruct H' as (Hf & Hn & _).
    split; [exact Hf | split; [exact Hn |]]. simpl.
    apply noScoreTransition_designated.
    apply cancelInFlight_noScoreTransition. apply H.
  - pose proof (tracked_cancelInFlight d H) as (Hf & Hn & _).
    pose proof (cancelInFlight_noScoreTransition d (proj2 (proj2 H))) as Hno.
    simpl.
    split; [apply fresh_snoc, Hf | split; [apply NoDup_snoc; assumption |]].
    apply Forall_app. split.
    + apply noScoreTransition_designated, Hno.
    + constructor; [reflexivity | constructor].
Qed.

Lemma tracked_attributesEffect p d :
  tracked d -> tracked (attributesEffect p d).
Proof.
  intros H. unfold attributesEffect.
  destruct (attributes p) as [a |]; [| exact H].
  destruct (isFinalized p); [exact H |].
  destruct H as (Hf & Hn & Hdes). simpl.
  split; [apply fresh_snoc, Hf | split; [apply NoDup_snoc; assumption |]].
  apply designated_snoc; [reflexivity | exact Hdes].
Qed.

Lemma tracked_render p d : tracked d -> tracked (render p d).
Proof.
  intros H. unfold render.
  set (d1 := if scoreDepsChanged p d && scoreCleanup d
             then cancelInFlight d else d).
  assert (H1 : tracked d1).
  { unfold d1. destruct (scoreDepsChanged p d && scoreCleanup d);
      [apply tracked_cancelInFlight |]; exact H. }
  set (d2 := if scoreDepsChanged p d then scoreEffect p d1 else d1).
  assert (H2 : tracked d2).
  { unfold d2. destruct (scoreDepsChanged p d);
      [apply tracked_scoreEffect |]; exact H1. }
  set (d3 := if attributesDepsChanged p d then attributesEffect p d2 else d2).
  assert (H3 : tracked d3).
  { unfold d3. destruct (attributesDepsChanged p d);
      [apply tracked_attributesEffect |]; exact H2. }
  exact H3.
Qed.

Lemma tracked_mount : tracked mount.
Proof. repeat split; constructor. Qed.

(** The bookkeeping holds in every state the display can reach. *)
Lemma tracked_run es : forall d, tracked d -> tracked (run d es).
Proof.
  induction es as [| e es IH]; intros d H; [exact H |].
  simpl. apply IH. destruct e; [apply tracked_render | apply tracked_frame];
    exact H.
Qed.

(** Frames without a score transition. *)
Lemma callAll_keeps_score timestamp r :
  forall d,
    noScoreTransition r -> noScoreTransition (frameQueue d) ->
    displayScore (callAll timestamp r d) = displayScore d /\
    noScoreTransition (frameQueue (callAll timestamp r d)).
Proof.
  induction r as [| [h cb] r IH]; intros d Hr Hq; [auto |].
  inversion Hr as [| x l Hcb Hr']; subst. simpl in Hcb.
  destruct cb as [st sv tv | st sv tv]; [discriminate |].
  change (callAll timestamp ((h, animateAttributes st sv tv) :: r) d)
    with (callAll timestamp r (call timestamp (animateAttributes st sv tv) d)).
  pose proof (call_animateAttributes timestamp st sv tv d) as Hcall.
  cbv zeta in Hcall.
  set (d' := call timestamp (animateAttributes st sv tv) d) in *.
  destruct Hcall as (Es & _ & _ & Hgrow).
  rewrite <- Es. apply IH; [exact Hr' |].
  destruct Hgrow as [(Eq & _) | (cb & Hcb' & Eq & _)]; rewrite Eq.
  - exact Hq.
  - apply noScoreTransition_snoc; assumption.
Qed.

Lemma frame_keeps_score timestamp d :
  noScoreTransition (frameQueue d) ->
  displayScore (frame timestamp d) = displayScore d /\
  noScoreTransition (frameQueue (frame timestamp d)).
Proof.
  intros H. rewrite frame_callAll.
  destruct (callAll_keeps_score timestamp (frameQueue d)
              (setFrameQueue [] (nextHandle d) d) H) as [E Hno];
    [constructor |].
  split; [rewrite E; reflexivity | exact Hno].
Qed.

Lemma frames_keep_score (timestamps : list Q) :
  forall d,
    noScoreTransition (frameQueue d) ->
    displayScore (run d (map Frame timestamps)) = displayScore d.
Proof.
  induction timestamps as [| t ts IH]; intros d H; [reflexivity |].
  simpl. destruct (frame_keeps_score t d H) as [E Hno].
  rewrite IH by exact Hno. exact E.
Qed.

(** The score effect does what the claim says of a final update: the
    displayed score is the final one at once and no transition of the score
    stays queued. *)
Lemma final_score_render p d s :
  tracked d ->
  score p = Some s -> isFinalized p = true -> scoreDepsChanged p d = true ->
  displayScore (render p d) = s /\
  noScoreTransition (frameQueue (render p d)).
Proof.
  intros H Hs Hfin Hdeps. unfold render. rewrite Hdeps.
  set (d1 := if true && scoreCleanup d then cancelInFlight d else d).
  assert (H1 : tracked d1).
  { unfold d1. destruct (true && scoreCleanup d);
      [apply tracked_cancelInFlight |]; exact H. }
  assert (E2 : displayScore (scoreEffect p d1) = s /\
               noScoreTransition (frameQueue (scoreEffect p d1))).
  { unfold scoreEffect. rewrite Hs, Hfin. simpl. split.
    - apply (cancelInFlight_fields (showScore s d1)).
    - apply cancelInFlight_noScoreTransition. apply H1. }
  destruct E2 as [E2 Hno2].
  destruct (attributesDepsChanged p d); [| split; assumption].
  unfold attributesEffect.
  destruct (attributes p) as [a |]; [| split; assumption].
  rewrite Hfin. split; assumption.
Qed.

(** Hence, whatever happened before, no later frame overwrites a finalized
    displayed score. *)
Lemma final_score_stays (es : list Event) (p : Props) (s : Z)
    (timestamps : list Q) :
  score p = Some s -> isFinalized p = true ->
  scoreDepsChanged p (run mount es) = true ->
  displayScore (run (run mount es) (Render p :: map Frame timestamps)) = s.
Proof.
  intros Hs Hfin Hdeps.
  destruct (final_score_render p (run mount es) s) as [E Hno]; auto.
  { apply tracked_run, tracked_mount. }
  change (run (run mount es) (Render p :: map Frame timestamps))
    with (run (render p (run mount es)) (map Frame timestamps)).
  rewrite frames_keep_score by exact Hno. exact E.
Qed.

Lemma noScoreTransition_filter q :
  noScoreTransition q -> filter (fun hc => isAnimate (snd hc)) q = [].
Proof.
  induction q as [| hc q IH]; intros H; [reflexivity |].
  inversion H as [| x l Hx Hq]; subst. simpl. rewrite Hx. apply IH, Hq.
Qed.

Lemma scoreTransitions_attributesEffect p d :
  scoreTransitions (attributesEffect p d) = scoreTransitions d.
Proof.
  unfold attributesEffect, scoreTransitions.
  destruct (attributes p) as [a |]; [| reflexivity].
  destruct (isFinalized p); [reflexivity |].
  simpl. rewrite filter_app. simpl. rewrite app_nil_r. reflexivity.
Qed.

(** The score effect does what the claim says of a new update: the only
    transition of the score queued afterwards is a fresh one, from the value
    displayed at that moment to the new score. *)
Lemma update_restarts_score_transition p d s :
  tracked d ->
  score p = Some s -> isFinalized p = false -> scoreDepsChanged p d = true ->
  scoreTransitions (render p d) = [animate None (currentScoreRef d) s].
Proof.
  intros H Hs Hfin Hdeps. unfold render. rewrite Hdeps.
  set (d1 := if true && scoreCleanup d then cancelInFlight d else d).
  assert (H1 : tracked d1 /\ currentScoreRef d1 = currentScoreRef d).
  { unfold d1. destruct (true && scoreCleanup d); [| auto].
    split; [apply tracked_cancelInFlight, H | apply cancelInFlight_fields]. }
  destruct H1 as [H1 E1].
  assert (E2 : scoreTransitions (scoreEffect p d1) =
               [animate None (currentScoreRef d) s]).
  { unfold scoreEffect, scoreTransitions. rewrite Hs, Hfin. simpl.
    rewrite filter_app, noScoreTransition_filter
      by (apply cancelInFlight_noScoreTransition, H1).
    simpl. rewrite E1. reflexivity. }
  destruct (attributesDepsChanged p d);
    [unfold scoreTransitions; simpl;
     fold (scoreTransitions (attributesEffect p (scoreEffect p d1)));
     rewrite scoreTransitions_attributesEffect |];
    exact E2.
Qed.

End AnimatorBookkeeping.

(** ** The presentation animator: the transition of the attributes *)

Section Animator.
Import WebcamComponent.

(** C7.  The defect, on a final update that arrives while the transitions
    of the previous update are in flight.  The final update sets the
    displayed score to 60 and the displayed attributes to 90 at once, and
    the transition of the score is cancelled; the transition of the
    attributes towards 80 stays queued, because the attributes effect never
    keeps the handle of its request and never cancels.  The next frame
    overwrites the finalized attributes with 30, and once that transition
    has run its 150 ms the display shows 80, the values of the non-final
    update, next to the final score 60.  In the same way a second non-final
    update leaves the first transition of the attributes queued beside the
    new one, while the score has only the new one.  Whatever the display,
    the attributes effect of a final update leaves the queue of frame
    callbacks as it finds it. *)
Theorem final_attributes_overwritten :
  let d := ScoreDisplay.run ScoreDisplay.mount finalizedInFlight in
  let d1 := ScoreDisplay.run d [ScoreDisplay.Frame 32] in
  let d2 := ScoreDisplay.run d1 [ScoreDisplay.Frame 48; ScoreDisplay.Frame 200] in
  let u := ScoreDisplay.run ScoreDisplay.mount updatedInFlight in
  (ScoreDisplay.displayScore d = 60%Z /\
   ScoreDisplay.displayAttributes d = attrs 90 /\
   scoreTargets d = [] /\
   attributeTargets d = [attrs 80]) /\
  (ScoreDisplay.displayScore d1 = 60%Z /\
   ScoreDisplay.displayAttributes d1 = attrs 30) /\
  (ScoreDisplay.displayScore d2 = 60%Z /\
   ScoreDisplay.displayAttributes d2 = attrs 80 /\
   ScoreDisplay.frameQueue d2 = []) /\
  (scoreTargets u = [55%Z] /\
   attributeTargets u = [attrs 80; attrs 20]) /\
  (forall (p : ScoreDisplay.Props) (q : ScoreDisplay.Display),
     ScoreDisplay.isFinalized p = true ->
     ScoreDisplay.frameQueue (ScoreDisplay.attributesEffect p q) =
     ScoreDisplay.frameQueue q).
Proof.
  cbv zeta.
  split; [| split; [| split; [| split]]]; try (vm_compute; repeat split; fail).
  intros p q Hfinal. unfold ScoreDisplay.attributesEffect.
  rewrite Hfinal. destruct (ScoreDisplay.attributes p); reflexivity.
Qed.

End Animator.

(** * Further properties *)

(** ** The scoring functions: what the perturbation can and cannot do *)

Section ScoringShape.
Import WebcamComponent.
Local Open Scope R_scope.

Lemma Math_round_le (x y : R) : x <= y -> (Math_round x <= Math_round y)%Z.
Proof.
  intros H.
  destruct (Math_round_spec x) as [Hx _].
  destruct (Math_round_spec y) as [_ Hy].
  apply Z.lt_succ_r, lt_IZR. rewrite succ_IZR. lra.
Qed.

Lemma clamp_le (lo hi x y : R) : x <= y -> clamp lo hi x <= clamp lo hi y.
Proof.
  intros H. unfold clamp.
  apply Rle_max_compat_l, Rle_min_compat_l, H.
Qed.

Lemma round_clamp_near (l p m : R) :
  - m <= p <= m ->
  Rabs (IZR (Math_round (Rmax 0 (Rmin 100 (l + p)))) - clamp 0 100 l)
  < m + 1.
Proof.
  intros [Hlo Hhi].
  destruct (Math_round_spec (Rmax 0 (Rmin 100 (l + p)))) as [H1 H2].
  assert (Hy : - m <= Rmax 0 (Rmin 100 (l + p)) - clamp 0 100 l <= m).
  { unfold clamp, Rmax, Rmin.
    destruct (Rle_dec 100 (l + p)), (Rle_dec 100 l);
      repeat match goal with
             | |- context [Rle_dec ?a ?b] => destruct (Rle_dec a b)
             end; lra. }
  apply Rabs_def1; lra.
Qed.

(** X1.  The sine term is worth at most 5 points and the rounding at most
    a half: the raw score is less than 6 points away from the weighted sum
    clamped to [0,100]. *)
Theorem rawScore_within_5_of_linear (d : FaceDetectionResult) :
  Rabs (IZR (calculateRawFundabilityScore d) - clamp 0 100 (linearScore d))
  < 6.
Proof.
  unfold calculateRawFundabilityScore, linearScore; cbv zeta.
  match goal with |- context [sin ?x] =>
    destruct (SIN_bound x) as [Hlo Hhi]; set (v := sin x) in *
  end.
  replace 6 with (5 + 1) by ring.
  apply round_clamp_near. lra.
Qed.

(** X2.  Likewise charisma is less than 11 points away from its weighted
    sum clamped to [0,100], dumbness less than 16 and single less than
    11. *)
Theorem attributes_within_perturbation (d : FaceDetectionResult) :
  Rabs (IZR (charisma (calculateAttributes d))
        - clamp 0 100 (linearCharisma d)) < 11 /\
  Rabs (IZR (dumbness (calculateAttributes d))
        - clamp 0 100 (linearDumbness d)) < 16 /\
  Rabs (IZR (single (calculateAttributes d))
        - clamp 0 100 (linearSingle d)) < 11.
Proof.
  unfold calculateAttributes, linearCharisma, linearDumbness, linearSingle;
    cbv zeta; simpl.
  split; [| split].
  - destruct (SIN_bound (score d * 50)).
    replace 11 with (10 + 1) by ring. apply round_clamp_near. lra.
  - destruct (COS_bound (score d * 70)).
    replace 16 with (15 + 1) by ring. apply round_clamp_near. lra.
  - destruct (SIN_bound (score d * 90)).
    replace 11 with (10 + 1) by ring. apply round_clamp_near. lra.
Qed.

(** X3.  The seed of the sine reads the confidence, happy and neutral
    only.  So between two snapshots that agree on these three, more
    sadness or anger never raises the raw score and more surprise never
    lowers it. *)
Theorem rawScore_monotone (d d' : FaceDetectionResult) :
  score d = score d' ->
  happy (expressions d) = happy (expressions d') ->
  neutral (expressions d) = neutral (expressions d') ->
  sad (expressions d) <= sad (expressions d') ->
  angry (expressions d) <= angry (expressions d') ->
  surprised (expressions d') <= surprised (expressions d) ->
  (calculateRawFundabilityScore d' <= calculateRawFundabilityScore d)%Z.
Proof.
  intros Hc Hh Hn Hs Ha Hsu.
  unfold calculateRawFundabilityScore; cbv zeta.
  rewrite Hc, Hh, Hn.
  apply Math_round_le, (clamp_le 0 100). lra.
Qed.

Lemma rawScore_monotone_witness :
  (calculateRawFundabilityScore sadSnapshot
   <= calculateRawFundabilityScore exampleSnapshot)%Z.
Proof.
  apply rawScore_monotone; simpl; lra.
Defined.

(** X4.  The perturbation of each attribute reads the confidence only.  So
    at equal confidence charisma grows with happy and surprised, dumbness
    grows with surprised and disgusted and falls with neutral, and single
    grows with sad, neutral and angry and falls with happy. *)
Theorem attributes_monotone (d d' : FaceDetectionResult) :
  score d = score d' ->
  (happy (expressions d) <= happy (expressions d') ->
   surprised (expressions d) <= surprised (expressions d') ->
   (charisma (calculateAttributes d) <= charisma (calculateAttributes d'))%Z) /\
  (neutral (expressions d') <= neutral (expressions d) ->
   surprised (expressions d) <= surprised (expressions d') ->
   disgusted (expressions d) <= disgusted (expressions d') ->
   (dumbness (calculateAttributes d) <= dumbness (calculateAttributes d'))%Z) /\
  (sad (expressions d) <= sad (expressions d') ->
   neutral (expressions d) <= neutral (expressions d') ->
   angry (expressions d) <= angry (expressions d') ->
   happy (expressions d') <= happy (expressions d) ->
   (single (calculateAttributes d) <= single (calculateAttributes d'))%Z).
Proof.
  intros Hc. unfold calculateAttributes; cbv zeta; simpl. rewrite Hc.
  split; [| split]; intros; apply Math_round_le, (clamp_le 0 100); lra.
Qed.

Lemma attributes_monotone_witness :
  (single (calculateAttributes exampleSnapshot)
   <= single (calculateAttributes sadSnapshot))%Z.
Proof.
  apply (proj2 (proj2 (attributes_monotone exampleSnapshot sadSnapshot
                         eq_refl))); simpl; lra.
Defined.

(** *** Target projection *)

Lemma shifted_target_near (lo hi m init : Z) (v : R) :
  (lo <= init <= hi)%Z -> (0 <= m)%Z -> - IZR m <= v <= IZR m ->
  (init - m <= Math_round (Rmax (IZR lo) (Rmin (IZR hi) (IZR init + v)))
   <= init + m)%Z.
Proof.
  intros [Hlo Hhi] Hm [Hv0 Hv1].
  apply IZR_le in Hlo, Hhi, Hm.
  apply Math_round_bounds. rewrite minus_IZR, plus_IZR.
  unfold Rmax, Rmin.
  destruct (Rle_dec (IZR hi) (IZR init + v));
    destruct (Rle_dec (IZR lo) _); lra.
Qed.

(** The shift applied to the initial score, drift included, is more than
    2 and at most 15 in size. *)
Lemma targetShift_bounds (d : FaceDetectionResult) :
  let shiftFactor :=
    sin (score d * 100 + happy (expressions d) * 50) * 15 in
  let delta :=
    if Rlt_dec (Rabs shiftFactor) 3
    then shiftFactor + (if Rlt_dec (5 / 10) (score d) then 5 else -5)
    else shiftFactor in
  (2 < delta <= 15) \/ (-15 <= delta < -2).
Proof.
  cbv zeta.
  destruct (SIN_bound (score d * 100 + happy (expressions d) * 50))
    as [Hlo Hhi].
  set (v := sin _) in *.
  destruct (Rlt_dec (Rabs (v * 15)) 3) as [Habs | Habs].
  - apply Rabs_def2 in Habs.
    destruct (Rlt_dec (5 / 10) (score d)); [left | right]; lra.
  - destruct (Rcase_abs (v * 15)) as [Hneg | Hpos].
    + rewrite (Rabs_left _ Hneg) in Habs. right. lra.
    + rewrite (Rabs_right _ Hpos) in Habs. left. lra.
Qed.

Lemma targetScore_as_delta (initialScore : Z) (d : FaceDetectionResult) :
  exists delta : R,
    ((2 < delta <= 15) \/ (-15 <= delta < -2)) /\
    calculateDeterministicTargetScore initialScore d =
    Math_round (Rmax 15 (Rmin 90 (IZR initialScore + delta))).
Proof.
  pose proof (targetShift_bounds d) as H. cbv zeta in H.
  unfold calculateDeterministicTargetScore; cbv zeta.
  set (s := sin (score d * 100 + happy (expressions d) * 50) * 15) in *.
  destruct (Rlt_dec (Rabs s) 3).
  - eexists. split; [exact H |]. do 3 f_equal. ring.
  - eexists. split; [exact H |]. reflexivity.
Qed.

(** X5.  The drift does what its comment says: whatever the snapshot, the
    target score differs from the initial score, unless the initial score
    is one of the clamp bounds 15 and 90. *)
Theorem target_moves (initialScore : Z) (d : FaceDetectionResult) :
  initialScore <> 15%Z -> initialScore <> 90%Z ->
  calculateDeterministicTargetScore initialScore d <> initialScore.
Proof.
  intros H15 H90.
  destruct (targetScore_as_delta initialScore d) as (delta & Hd & ->).
  set (x := IZR initialScore + delta).
  destruct (Rle_dec x 90) as [Hx90 | Hx90].
  - destruct (Rle_dec 15 x) as [Hx15 | Hx15].
    + rewrite Rmax_Rmin_inside by lra.
      intros Heq. destruct (Math_round_spec x) as [H1 H2].
      rewrite Heq in H1, H2. unfold x in *. lra.
    + rewrite Rmin_right by exact Hx90.
      rewrite Rmax_left by lra.
      rewrite (Math_round_IZR 15). congruence.
  - rewrite Rmin_left by lra. rewrite Rmax_right by lra.
    rewrite (Math_round_IZR 90). congruence.
Qed.

Lemma target_moves_witness :
  calculateDeterministicTargetScore 73 exampleSnapshot <> 73%Z.
Proof.
  apply target_moves; lia.
Defined.

(** X6.  From an initial score within the clamp range 15..90 the target
    score is at most 15 points away. *)
Theorem target_within_15 (initialScore : Z) (d : FaceDetectionResult) :
  (15 <= initialScore <= 90)%Z ->
  (initialScore - 15 <= calculateDeterministicTargetScore initialScore d
   <= initialScore + 15)%Z.
Proof.
  intros H.
  destruct (targetScore_as_delta initialScore d) as (delta & Hd & ->).
  apply (shifted_target_near 15 90 15); [exact H | lia | lra].
Qed.

Lemma target_within_15_witness :
  (73 - 15 <= calculateDeterministicTargetScore 73 exampleSnapshot
   <= 73 + 15)%Z.
Proof.
  apply target_within_15. lia.
Defined.

(** X7.  From an initial attribute within its own clamp range the target
    is at most 15 points away for charisma, 12 for dumbness and 18 for
    single. *)
Theorem attributeTargets_near (initialAttrs : FundabilityAttributes)
    (d : FaceDetectionResult) :
  ((10 <= charisma initialAttrs <= 95)%Z ->
   (charisma initialAttrs - 15
    <= charisma (calculateDeterministicAttributeTargets initialAttrs d)
    <= charisma initialAttrs + 15)%Z) /\
  ((5 <= dumbness initialAttrs <= 90)%Z ->
   (dumbness initialAttrs - 12
    <= dumbness (calculateDeterministicAttributeTargets initialAttrs d)
    <= dumbness initialAttrs + 12)%Z) /\
  ((15 <= single initialAttrs <= 95)%Z ->
   (single initialAttrs - 18
    <= single (calculateDeterministicAttributeTargets initialAttrs d)
    <= single initialAttrs + 18)%Z).
Proof.
  unfold calculateDeterministicAttributeTargets; cbv zeta; simpl.
  split; [| split]; intros H.
  - destruct (SIN_bound (score d * 100 + happy (expressions d) * 60)).
    apply (shifted_target_near 10 95 15); [exact H | lia | lra].
  - destruct (SIN_bound (score d * 120 + happy (expressions d) * 40)).
    apply (shifted_target_near 5 90 12); [exact H | lia | lra].
  - destruct (SIN_bound (score d * 140 + happy (expressions d) * 20)).
    apply (shifted_target_near 15 95 18); [exact H | lia | lra].
Qed.

Lemma attributeTargets_near_witness :
  (50 - 15
   <= charisma (calculateDeterministicAttributeTargets (attrs 50)
                  exampleSnapshot)
   <= 50 + 15)%Z.
Proof.
  apply (proj1 (attributeTargets_near (attrs 50) exampleSnapshot)).
  simpl. lia.
Defined.

(** *** Interpolation *)

Lemma interpolate_between (a b : Z) (p : R) :
  0 <= p <= 1 ->
  between a b (Math_round (IZR a + (IZR b - IZR a) * p)).
Proof.
  intros [Hp0 Hp1]. unfold between.
  apply Math_round_bounds.
  destruct (Z.le_ge_cases a b) as [Hab | Hab].
  - rewrite Z.min_l, Z.max_r by lia. apply IZR_le in Hab. split; nra.
  - rewrite Z.min_r, Z.max_l by lia. apply IZR_le in Hab. split; nra.
Qed.

Lemma interpolateAttributes_1 (a b : FundabilityAttributes) :
  interpolateAttributes a b 1 = b.
Proof.
  destruct b as [cb db sb]. unfold interpolateAttributes; simpl.
  replace (IZR (charisma a) + (IZR cb - IZR (charisma a)) * 1) with (IZR cb)
    by ring.
  replace (IZR (dumbness a) + (IZR db - IZR (dumbness a)) * 1) with (IZR db)
    by ring.
  replace (IZR (single a) + (IZR sb - IZR (single a)) * 1) with (IZR sb)
    by ring.
  rewrite !Math_round_IZR. reflexivity.
Qed.

Lemma interpolateAttributes_inside (a b : FundabilityAttributes) (p : R) :
  0 <= p <= 1 -> betweenAttributes a b (interpolateAttributes a b p).
Proof.
  intros Hp. unfold betweenAttributes, interpolateAttributes; simpl.
  split; [| split]; apply interpolate_between; exact Hp.
Qed.

(** X8.  [interpolateAttributes] returns the initial attributes at
    progress 0 and the target attributes at progress 1, and for a progress
    in [0,1] each attribute lies between its initial and its target
    value. *)
Theorem interpolateAttributes_between :
  (forall a b, interpolateAttributes a b 0 = a) /\
  (forall a b, interpolateAttributes a b 1 = b) /\
  (forall a b p, 0 <= p <= 1 ->
     betweenAttributes a b (interpolateAttributes a b p)).
Proof.
  split; [exact interpolateAttributes_0 | split].
  - exact interpolateAttributes_1.
  - exact interpolateAttributes_inside.
Qed.

Lemma interpolateAttributes_between_witness :
  betweenAttributes (attrs 20) (attrs 80)
    (interpolateAttributes (attrs 20) (attrs 80) (1 / 2)).
Proof.
  apply (proj2 (proj2 interpolateAttributes_between)). lra.
Defined.

End ScoringShape.

(** ** The session: one run of the callback *)

Section CallbackShape.
Import WebcamComponent.

(** X10.  What no run of the callback does, whatever the closure, the poll
    and the store: it never sends more than one update, never writes
    [finalScoreCalculated] back to false, never clears the written start
    time, and touches the refs only when it reads no start time. *)
Theorem tick_never_resets (c : State) (currentTime : Z) (p : Poll)
    (s : Store) :
  (List.length (snd (tick c currentTime p s)) <= 1)%nat /\
  (finalScoreCalculated (state s) = true ->
   finalScoreCalculated (state (fst (tick c currentTime p s))) = true) /\
  (analysisStartTime (state s) <> None ->
   analysisStartTime (state (fst (tick c currentTime p s))) <> None) /\
  (analysisStartTime c <> None ->
   refs (fst (tick c currentTime p s)) = refs s).
Proof.
  destruct p as [| | startTime [| person ds]];
    try (cbn; repeat split; intros; auto; fail).
  unfold tick.
  destruct (finalScoreCalculated c);
    [cbn; repeat split; intros; auto |].
  destruct (analysisStartTime c) as [t0 |]; destruct (_ >=? _)%Z;
    try (destruct (initialAnimatedScoreRef (refs s)),
                  (finalAnimatedTargetScoreRef (refs s)),
                  (initialAttributesRef (refs s)),
                  (finalAttributesRef (refs s)));
    cbn; repeat split; intros; auto; try congruence; try discriminate.
Qed.

Lemma tick_never_resets_witness :
  finalScoreCalculated
    (state (fst (tick firstRender 7000 (Detections 7040 [exampleSnapshot])
                   {| state := {| analysisStartTime := Some 1040%Z;
                                  finalScoreCalculated := true |};
                      refs := noRefs |}))) = true.
Proof.
  apply (proj1 (proj2 (tick_never_resets firstRender 7000
                         (Detections 7040 [exampleSnapshot])
                         {| state := {| analysisStartTime := Some 1040%Z;
                                        finalScoreCalculated := true |};
                            refs := noRefs |}))).
  reflexivity.
Defined.

End CallbackShape.

(** ** The feedback text *)

Section FeedbackShape.
Import WebcamComponent.

Lemma inBand_outside (s : Z) (fb : FeedbackBand) :
  (s < minScore fb \/ maxScore fb < s)%Z -> inBand s fb = false.
Proof.
  intros H. unfold inBand. rewrite Z.geb_leb.
  apply andb_false_iff.
  destruct H; [left | right]; apply Z.leb_gt; assumption.
Qed.

(** X11.  For an integer score below 0 or above 100 no band matches and
    [getFeedbackMessage] returns the default text. *)
Theorem feedback_default_outside (s : Z) :
  (s < 0 \/ 100 < s)%Z -> getFeedbackMessage s = "Analyzing..."%string.
Proof.
  intros H. unfold getFeedbackMessage.
  assert (Hnone : find (inBand s) feedbackMessages = None).
  { unfold feedbackMessages; simpl.
    rewrite !inBand_outside by (simpl; lia). reflexivity. }
  rewrite Hnone. reflexivity.
Qed.

Lemma feedback_default_outside_witness :
  getFeedbackMessage 101 = "Analyzing..."%string.
Proof.
  apply feedback_default_outside. lia.
Defined.

Lemma feedback_spoken (s : Z) :
  (0 <= s <= 100)%Z -> getFeedbackMessage s <> "Analyzing..."%string.
Proof.
  intros Hs.
  destruct (feedbackMessages_cover s Hs) as [fb Hfind].
  destruct (find_some _ _ Hfind) as [Hin _].
  pose proof feedbackMessages_spoken as Hall.
  rewrite Forall_forall in Hall. destruct (Hall fb Hin) as [Hne Hna].
  unfold getFeedbackMessage. rewrite Hfind.
  destruct (message fb); [now elim Hne | exact Hna].
Qed.

(** X12.  Every update the component ever sends carries the feedback of
    the score it carries, which is a band message and never the default
    text, and it always carries attributes. *)
Theorem updates_carry_band_message (es : list Event) :
  Forall (fun u =>
            newFeedback u = getFeedbackMessage (newScore u) /\
            newFeedback u <> "Analyzing..."%string /\
            newAttributes u <> None)
         (snd (run mount es)).
Proof.
  eapply Forall_impl;
    [| apply run_sends_initialUpdate, closuresOfFirstRender_mount].
  intros u [person ->]. simpl.
  split; [reflexivity | split; [| discriminate]].
  apply feedback_spoken, calculateRawFundabilityScore_percent.
Qed.

(** X13.  A target score lies in 15..90, so the feedback of a target score
    is never the message of the top band 96..100, nor the default text. *)
Theorem final_feedback_bands (initialScore : Z) (d : FaceDetectionResult) :
  getFeedbackMessage (calculateDeterministicTargetScore initialScore d)
    <> "Are you Elon Musk's secret twin?!"%string /\
  getFeedbackMessage (calculateDeterministicTargetScore initialScore d)
    <> "Analyzing..."%string.
Proof.
  pose proof (calculateDeterministicTargetScore_range initialScore d) as H.
  set (t := calculateDeterministicTargetScore initialScore d) in *.
  assert (Ht : (0 <= t <= 100)%Z) by lia.
  split; [| apply feedback_spoken, Ht].
  destruct (feedbackMessages_cover t Ht) as [fb Hfind].
  destruct (find_some _ _ Hfind) as [Hin Hband].
  apply inBand_spec in Hband. unfold containsScore in Hband.
  unfold getFeedbackMessage. rewrite Hfind.
  unfold feedbackMessages in Hin. simpl in Hin.
  repeat (destruct Hin as [<- | Hin]; [simpl in *; try discriminate; lia |]).
  contradiction.
Qed.

End FeedbackShape.

(** ** The component before the detection starts *)

Section Startup.
Import WebcamComponent.

Lemma step_neverStarts (w : Component) (e : Event) :
  playListener w = None -> detectionInterval w = None -> neverStarts e ->
  snd (step w e) = [] /\
  playListener (fst (step w e)) = None /\
  detectionInterval (fst (step w e)) = None /\
  store (fst (step w e)) = store w.
Proof.
  intros Hl Hi He.
  destruct e as [[| |] | present | currentTime p]; simpl in He;
    try contradiction; unfold step.
  - destruct (isModelLoaded w); simpl; auto.
  - rewrite Hl. auto.
  - rewrite Hi. auto.
Qed.

Lemma run_neverStarts (es : list Event) :
  forall w,
    playListener w = None -> detectionInterval w = None ->
    Forall neverStarts es ->
    snd (run w es) = [] /\
    detectionInterval (fst (run w es)) = None /\
    store (fst (run w es)) = store w.
Proof.
  induction es as [| e es IH]; intros w Hl Hi Hall; [auto |].
  inversion Hall as [| e' es' He Hes]; subst.
  destruct (step_neverStarts w e Hl Hi He) as (Hout & Hl' & Hi' & Hs).
  destruct (IH (fst (step w e)) Hl' Hi' Hes) as (Hout2 & Hi2 & Hs2).
  rewrite run_cons, Hout, Hout2; cbn [fst snd app].
  rewrite Hs2, Hs. auto.
Qed.

(** X14.  As long as the models have not loaded with a video element
    present (they never load, or load while the webcam is not mounted), no
    interval runs: whatever plays or ticks, detections included, no update
    is sent and the session stays idle. *)
Theorem no_update_before_start (es : list Event) :
  Forall neverStarts es ->
  snd (run mount es) = [] /\
  detectionInterval (fst (run mount es)) = None /\
  idle (store (fst (run mount es))).
Proof.
  intros Hall.
  destruct (run_neverStarts es mount eq_refl eq_refl Hall) as (Hout & Hi & Hs).
  rewrite Hs. split; [exact Hout | split; [exact Hi | split; reflexivity]].
Qed.

Lemma no_update_before_start_witness :
  snd (run mount [ModelsLoaded NoVideo; Play true;
                  Tick 1000 (Detections 1040 [exampleSnapshot])]) = [] /\
  detectionInterval
    (fst (run mount [ModelsLoaded NoVideo; Play true;
                     Tick 1000 (Detections 1040 [exampleSnapshot])])) = None /\
  idle (store
          (fst (run mount [ModelsLoaded NoVideo; Play true;
                           Tick 1000 (Detections 1040 [exampleSnapshot])]))).
Proof.
  apply no_update_before_start. repeat constructor.
Defined.

(** X15.  In every state the component can reach, the [play] listener and
    the interval callback, when there is one, are closures of the first
    render: they read no start time and no final score. *)
Theorem closures_stay_those_of_first_render (w : Component) :
  reachable w ->
  (forall c, playListener w = Some c -> c = firstRender) /\
  (forall c, detectionInterval w = Some c -> c = firstRender).
Proof.
  intros H. apply reachable_closures in H.
  destruct H as (_ & Hl & Hi). split; assumption.
Qed.

Lemma closures_stay_those_of_first_render_witness :
  reachable started /\
  (forall c, playListener started = Some c -> c = firstRender) /\
  (forall c, detectionInterval started = Some c -> c = firstRender).
Proof.
  assert (H : reachable started)
    by (exists [ModelsLoaded Ready]; reflexivity).
  split; [exact H | exact (closures_stay_those_of_first_render started H)].
Defined.

End Startup.

(** ** The consumer callback over a whole run *)

Section ConsumerShape.
Import WebcamComponent.
Import App.

Lemma handleScoreUpdate_nonfinal (render : AppState) (u : ScoreUpdate)
    (st : AppState) :
  isFinal u = false ->
  finalScore (handleScoreUpdate render u st) = finalScore st /\
  finalFeedback (handleScoreUpdate render u st) = finalFeedback st /\
  finalAttributes (handleScoreUpdate render u st) = finalAttributes st /\
  isAnalysisComplete (handleScoreUpdate render u st) = isAnalysisComplete st.
Proof.
  intros Hf. unfold handleScoreUpdate. rewrite Hf.
  destruct (isAnalysisComplete render); simpl; repeat split.
Qed.

(** X16.  Whatever the render and the update, [handleScoreUpdate] never
    takes a completed analysis back; a non-final update leaves the final
    score, the final feedback, the final attributes and the completion flag
    as they are; an update without attributes leaves both stored attribute
    sets as they are. *)
Theorem handleScoreUpdate_keeps_final (render : AppState) (u : ScoreUpdate)
    (st : AppState) :
  (isAnalysisComplete st = true ->
   isAnalysisComplete (handleScoreUpdate render u st) = true) /\
  (isFinal u = false ->
   finalScore (handleScoreUpdate render u st) = finalScore st /\
   finalFeedback (handleScoreUpdate render u st) = finalFeedback st /\
   finalAttributes (handleScoreUpdate render u st) = finalAttributes st /\
   isAnalysisComplete (handleScoreUpdate render u st) =
     isAnalysisComplete st) /\
  (newAttributes u = None ->
   attributes (handleScoreUpdate render u st) = attributes st /\
   finalAttributes (handleScoreUpdate render u st) = finalAttributes st).
Proof.
  unfold handleScoreUpdate.
  destruct (isAnalysisComplete render), (isFinal u),
    (newAttributes u); simpl;
    repeat split; intros; auto; try discriminate.
Qed.

Lemma handleScoreUpdate_keeps_final_witness :
  finalScore (handleScoreUpdate initialState (initialUpdate exampleSnapshot)
                completedAt50) = finalScore completedAt50 /\
  finalFeedback (handleScoreUpdate initialState
                   (initialUpdate exampleSnapshot) completedAt50) =
    finalFeedback completedAt50 /\
  finalAttributes (handleScoreUpdate initialState
                     (initialUpdate exampleSnapshot) completedAt50) =
    finalAttributes completedAt50 /\
  isAnalysisComplete (handleScoreUpdate initialState
                        (initialUpdate exampleSnapshot) completedAt50) =
    isAnalysisComplete completedAt50.
Proof.
  apply (proj1 (proj2 (handleScoreUpdate_keeps_final initialState
                         (initialUpdate exampleSnapshot) completedAt50))).
  reflexivity.
Defined.

(** X17.  The guard of [handleScoreUpdate] reads the completion flag of
    its own render, never the written one: a callback of a render in which
    the analysis was not complete stores the score and feedback of every
    update, and relocks the final values on every final update, even when
    the written state is already complete. *)
Theorem handleScoreUpdate_reads_render (render : AppState) (u : ScoreUpdate)
    (st : AppState) :
  isAnalysisComplete render = false ->
  score (handleScoreUpdate render u st) = Some (newScore u) /\
  feedback (handleScoreUpdate render u st) = newFeedback u /\
  (isFinal u = true ->
   finalScore (handleScoreUpdate render u st) = Some (newScore u) /\
   finalFeedback (handleScoreUpdate render u st) = newFeedback u /\
   isAnalysisComplete (handleScoreUpdate render u st) = true) /\
  (forall a, newAttributes u = Some a ->
     attributes (handleScoreUpdate render u st) = Some a /\
     (isFinal u = true ->
      finalAttributes (handleScoreUpdate render u st) = Some a)).
Proof.
  intros Hr. unfold handleScoreUpdate. rewrite Hr.
  destruct (isFinal u), (newAttributes u); simpl;
    repeat split; intros; auto; try discriminate; try congruence.
Qed.

Lemma handleScoreUpdate_reads_render_witness :
  score (handleScoreUpdate initialState final60 completedAt50) = Some 60%Z /\
  finalScore (handleScoreUpdate initialState final60 completedAt50) =
    Some 60%Z.
Proof.
  destruct (handleScoreUpdate_reads_render initialState final60 completedAt50
              eq_refl) as (Hs & _ & Hf & _).
  split; [exact Hs | exact (proj1 (Hf eq_refl))].
Defined.

Lemma consume_nonfinal (render : AppState) (us : list ScoreUpdate) :
  forall st,
    Forall (fun u => isFinal u = false) us ->
    isAnalysisComplete (consume render us st) = isAnalysisComplete st /\
    finalScore (consume render us st) = finalScore st /\
    finalFeedback (consume render us st) = finalFeedback st /\
    finalAttributes (consume render us st) = finalAttributes st.
Proof.
  induction us as [| u us IH]; intros st Hall; [auto |].
  inversion Hall as [| u' us' Hu Hus]; subst.
  destruct (handleScoreUpdate_nonfinal render u st Hu) as (H1 & H2 & H3 & H4).
  destruct (IH (handleScoreUpdate render u st) Hus) as (I1 & I2 & I3 & I4).
  unfold consume in *. simpl.
  rewrite I1, I2, I3, I4. auto.
Qed.

(** X18.  The component and the consumer together: whatever happens, and
    whichever render's [handleScoreUpdate] the component calls, once the
    consumer has handled every update sent the analysis is not complete and
    no final score, final feedback or final attributes are stored. *)
Theorem app_never_completes (render : AppState) (es : list Event) :
  isAnalysisComplete
    (consume render (snd (run mount es)) initialState) = false /\
  finalScore (consume render (snd (run mount es)) initialState) = None /\
  finalFeedback (consume render (snd (run mount es)) initialState) =
    EmptyString /\
  finalAttributes (consume render (snd (run mount es)) initialState) = None.
Proof.
  destruct (consume_nonfinal render (snd (run mount es)) initialState
              (run_never_final es)) as (H1 & H2 & H3 & H4).
  rewrite H1, H2, H3, H4. repeat split.
Qed.

End ConsumerShape.

(** ** The animator: easing and blending *)

Section Easing.
Import ScoreDisplay.
Local Open Scope Q_scope.

Lemma easeOutQuad_unit (t : Q) : 0 <= t <= 1 -> t <= easeOutQuad t <= 1.
Proof.
  unfold easeOutQuad. intros [H0 H1]. split; Lqa.nra.
Qed.

(** X19.  [easeOutQuad] starts at 0, ends at 1, and on [0,1] it stays
    within [0,1] and is never behind the linear progress. *)
Theorem easeOutQuad_shape :
  easeOutQuad 0 == 0 /\
  easeOutQuad 1 == 1 /\
  (forall t, 0 <= t <= 1 -> t <= easeOutQuad t <= 1).
Proof.
  split; [reflexivity | split; [reflexivity |]].
  exact easeOutQuad_unit.
Qed.

Lemma easeOutQuad_shape_witness :
  (1 # 2) <= easeOutQuad (1 # 2) <= 1.
Proof.
  apply (proj2 (proj2 easeOutQuad_shape)).
  split; discriminate.
Defined.

Lemma Math_min1_unit (q : Q) : 0 <= q -> 0 <= Math_min1 q <= 1.
Proof.
  intros H. unfold Math_min1.
  destruct (Qle_bool 1 q) eqn:E.
  - split; Lqa.lra.
  - split; [exact H |].
    destruct (Qlt_le_dec q 1) as [Hlt | Hle]; [Lqa.lra |].
    apply Qle_bool_iff in Hle. congruence.
Qed.

Lemma Math_roundQ_bounds (lo hi : Z) (q : Q) :
  inject_Z lo <= q <= inject_Z hi -> (lo <= Math_roundQ q <= hi)%Z.
Proof.
  intros [Hlo Hhi]. unfold Math_roundQ.
  pose proof (Qfloor_le (q + (1 # 2))) as Hf.
  pose proof (Qlt_floor (q + (1 # 2))) as Hc.
  split.
  - apply Z.lt_succ_r. rewrite Zlt_Qlt.
    unfold Z.succ. rewrite inject_Z_plus in *.
    change (inject_Z 1) with 1 in *. Lqa.lra.
  - apply Z.lt_succ_r. rewrite Zlt_Qlt.
    unfold Z.succ. rewrite inject_Z_plus in *.
    change (inject_Z 1) with 1 in *. Lqa.lra.
Qed.

Lemma blend_between (sv tv : Z) (e : Q) :
  0 <= e <= 1 -> between sv tv (blend sv tv e).
Proof.
  intros [H0 H1]. unfold between, blend.
  apply Math_roundQ_bounds.
  destruct (Z.le_ge_cases sv tv) as [Hab | Hab].
  - rewrite Z.min_l, Z.max_r by lia. rewrite Zle_Qle in Hab. split; Lqa.nra.
  - rewrite Z.min_r, Z.max_l by lia. rewrite Zle_Qle in Hab. split; Lqa.nra.
Qed.

Lemma blend_done (sv tv : Z) (e : Q) : e == 1 -> blend sv tv e = tv.
Proof.
  intros He. unfold blend.
  assert (H : (tv <= Math_roundQ
                 (inject_Z sv + (inject_Z tv - inject_Z sv) * e) <= tv)%Z).
  { apply Math_roundQ_bounds. rewrite He. split; Lqa.lra. }
  lia.
Qed.

Lemma blend_start (sv tv : Z) (e : Q) : e == 0 -> blend sv tv e = sv.
Proof.
  intros He. unfold blend.
  assert (H : (sv <= Math_roundQ
                 (inject_Z sv + (inject_Z tv - inject_Z sv) * e) <= sv)%Z).
  { apply Math_roundQ_bounds. rewrite He. split; Lqa.lra. }
  lia.
Qed.

Lemma progress_nonneg (startTime timestamp : Q) :
  startTime <= timestamp -> 0 <= (timestamp - startTime) / DURATION.
Proof.
  intros H. unfold DURATION, Qdiv.
  apply Qmult_le_0_compat; [Lqa.lra | discriminate].
Qed.

Lemma eased_unit (startTime timestamp : Q) :
  startTime <= timestamp -> 0 <= eased startTime timestamp <= 1.
Proof.
  intros H. unfold eased.
  destruct (Math_min1_unit _ (progress_nonneg _ _ H)) as [H0 H1].
  destruct (easeOutQuad_unit _ (conj H0 H1)). split; Lqa.lra.
Qed.

Lemma finished_eased (startTime timestamp : Q) :
  finished startTime timestamp = true -> eased startTime timestamp == 1.
Proof.
  unfold finished, eased, Math_min1.
  destruct (Qle_bool 1 ((timestamp - startTime) / DURATION)) eqn:E.
  - intros _. reflexivity.
  - intros H. congruence.
Qed.

Lemma finished_after (startTime timestamp : Q) :
  startTime + DURATION <= timestamp -> finished startTime timestamp = true.
Proof.
  intros H. unfold finished, Math_min1.
  assert (Hq : Qle_bool 1 ((timestamp - startTime) / DURATION) = true).
  { apply Qle_bool_iff. unfold DURATION in *.
    apply Qle_shift_div_l; [reflexivity | Lqa.lra]. }
  rewrite Hq. reflexivity.
Qed.

Lemma not_finished_at_start (t : Q) : finished t t = false.
Proof.
  unfold finished, Math_min1.
  assert (Hq : Qle_bool 1 ((t - t) / DURATION) = false).
  { destruct (Qle_bool 1 ((t - t) / DURATION)) eqn:E; [| reflexivity].
    apply Qle_bool_iff in E. unfold DURATION, Qdiv in E.
    assert (t - t == 0) as H0 by ring. rewrite H0 in E.
    exfalso. revert E. compute. intros E. apply E. reflexivity. }
  rewrite Hq. exact Hq.
Qed.

Lemma eased_at_start (t : Q) : eased t t == 0.
Proof.
  unfold eased, Math_min1.
  assert (Hq : Qle_bool 1 ((t - t) / DURATION) = false).
  { pose proof (not_finished_at_start t) as H. unfold finished, Math_min1 in H.
    destruct (Qle_bool 1 ((t - t) / DURATION)); [| reflexivity].
    discriminate. }
  rewrite Hq. unfold easeOutQuad, DURATION, Qdiv.
  assert (t - t == 0) as H0 by ring. rewrite H0. reflexivity.
Qed.

(** X20.  A transition never overshoots.  The first frame of a transition
    shows the start value; every later frame whose timestamp is not before
    the start time shows a value between the start value and the target,
    for the score and for each attribute. *)
Theorem transition_no_overshoot :
  (forall timestamp sv tv d,
     displayScore (call timestamp (animate None sv tv) d) = sv) /\
  (forall timestamp startTime sv tv d,
     startTime <= timestamp ->
     between sv tv
       (displayScore (call timestamp (animate (Some startTime) sv tv) d))) /\
  (forall timestamp sv tv d,
     displayAttributes (call timestamp (animateAttributes None sv tv) d) = sv) /\
  (forall timestamp startTime sv tv d,
     startTime <= timestamp ->
     betweenAttributes sv tv
       (displayAttributes
          (call timestamp (animateAttributes (Some startTime) sv tv) d))).
Proof.
  split; [| split; [| split]].
  - intros timestamp sv tv d. unfold call.
    rewrite not_finished_at_start. simpl.
    apply blend_start, eased_at_start.
  - intros timestamp startTime sv tv d H. unfold call.
    destruct (finished startTime timestamp); simpl;
      apply blend_between, eased_unit, H.
  - intros timestamp [c dm s] tv d. unfold call.
    rewrite not_finished_at_start. simpl.
    rewrite !blend_start by apply eased_at_start. reflexivity.
  - intros timestamp startTime sv tv d H. unfold call.
    destruct (finished startTime timestamp); simpl;
      repeat split; apply blend_between, eased_unit, H.
Qed.

Lemma transition_no_overshoot_witness :
  between 0 50
    (displayScore (call 48 (animate (Some 16) 0 50) mount)).
Proof.
  apply (proj1 (proj2 transition_no_overshoot)). discriminate.
Defined.

End Easing.

(** ** The animator: the transition of the score over the frames *)

Section ScoreTransition.
Import ScoreDisplay.
Local Open Scope Q_scope.

Lemma callAll_without_score timestamp r :
  forall d,
    noScoreTransition r ->
    displayScore (callAll timestamp r d) = displayScore d /\
    scoreTransitions (callAll timestamp r d) = scoreTransitions d /\
    animationFrameRef (callAll timestamp r d) = animationFrameRef d.
Proof.
  induction r as [| [h cb] r IH]; intros d Hr; [auto |].
  inversion Hr as [| x l Hcb Hr']; subst. simpl in Hcb.
  destruct cb as [st sv tv | st sv tv]; [discriminate |].
  change (callAll timestamp ((h, animateAttributes st sv tv) :: r) d)
    with (callAll timestamp r (call timestamp (animateAttributes st sv tv) d)).
  pose proof (call_animateAttributes timestamp st sv tv d) as Hcall.
  cbv zeta in Hcall.
  set (d' := call timestamp (animateAttributes st sv tv) d) in *.
  destruct Hcall as (Es & _ & Er & Hgrow).
  destruct (IH d' Hr') as (I1 & I2 & I3).
  rewrite I1, I2, I3, Es, Er.
  repeat split.
  unfold scoreTransitions.
  destruct Hgrow as [(Eq & _) | (cb & Hcb' & Eq & _)]; rewrite Eq;
    [reflexivity |].
  rewrite filter_app. simpl. rewrite Hcb'. simpl.
  rewrite app_nil_r. reflexivity.
Qed.

Lemma call_animate_score timestamp st sv tv d :
  displayScore (call timestamp (animate st sv tv) d) =
    blend sv tv (eased (startedAt st timestamp) timestamp) /\
  scoreTransitions (call timestamp (animate st sv tv) d) =
    scoreTransitions d ++
    (if finished (startedAt st timestamp) timestamp then []
     else [animate (Some (startedAt st timestamp)) sv tv]).
Proof.
  unfold call, startedAt, scoreTransitions.
  destruct (finished _ timestamp); simpl.
  - rewrite app_nil_r. split; reflexivity.
  - rewrite filter_app, map_app. split; reflexivity.
Qed.

Lemma filter_one_split (r : list (nat * FrameCallback)) (cb : FrameCallback) :
  map snd (filter (fun hc => isAnimate (snd hc)) r) = [cb] ->
  exists r1 h r2,
    r = r1 ++ (h, cb) :: r2 /\
    noScoreTransition r1 /\ noScoreTransition r2.
Proof.
  induction r as [| [h c] r IH]; simpl; [discriminate |].
  destruct (isAnimate c) eqn:Hc; simpl.
  - intros [= -> Hrest].
    exists [], h, r. split; [reflexivity | split; [constructor |]].
    apply Forall_forall. intros x Hin.
    destruct (isAnimate (snd x)) eqn:Hx; [| reflexivity].
    assert (Hin' : In (snd x)
                     (map snd (filter (fun hc => isAnimate (snd hc)) r))).
    { apply in_map, filter_In. auto. }
    rewrite Hrest in Hin'. contradiction.
  - intros H. destruct (IH H) as (r1 & h' & r2 & -> & H1 & H2).
    exists ((h, c) :: r1), h', r2.
    split; [reflexivity | split; [constructor; assumption | exact H2]].
Qed.

Lemma callAll_app timestamp r1 r2 d :
  callAll timestamp (r1 ++ r2) d =
  callAll timestamp r2 (callAll timestamp r1 d).
Proof. unfold callAll. apply fold_left_app. Qed.

(** One frame of a display with exactly one transition of the score. *)
Lemma frame_one_transition timestamp d st sv tv :
  scoreTransitions d = [animate st sv tv] ->
  displayScore (frame timestamp d) =
    blend sv tv (eased (startedAt st timestamp) timestamp) /\
  scoreTransitions (frame timestamp d) =
    (if finished (startedAt st timestamp) timestamp then []
     else [animate (Some (startedAt st timestamp)) sv tv]).
Proof.
  intros H. rewrite frame_callAll.
  destruct (filter_one_split _ _ H) as (r1 & h & r2 & Hq & H1 & H2).
  rewrite Hq, callAll_app.
  set (d0 := setFrameQueue [] (nextHandle d) d).
  destruct (callAll_without_score timestamp r1 d0 H1) as (_ & E1 & _).
  set (d1 := callAll timestamp r1 d0) in *.
  change (callAll timestamp ((h, animate st sv tv) :: r2) d1)
    with (callAll timestamp r2 (call timestamp (animate st sv tv) d1)).
  destruct (call_animate_score timestamp st sv tv d1) as (Es & Et).
  set (d2 := call timestamp (animate st sv tv) d1) in *.
  destruct (callAll_without_score timestamp r2 d2 H2) as (F1 & F2 & _).
  rewrite F1, F2, Es, Et, E1. split; reflexivity.
Qed.

Lemma scoreTransitions_nil d :
  scoreTransitions d = [] -> noScoreTransition (frameQueue d).
Proof.
  unfold scoreTransitions, noScoreTransition. intros H.
  apply Forall_forall. intros x Hin.
  destruct (isAnimate (snd x)) eqn:Hx; [| reflexivity].
  assert (Hin' : In (snd x)
            (map snd (filter (fun hc => isAnimate (snd hc)) (frameQueue d)))).
  { apply in_map, filter_In. auto. }
  rewrite H in Hin'. contradiction.
Qed.

Lemma noScoreTransition_nil d :
  noScoreTransition (frameQueue d) -> scoreTransitions d = [].
Proof.
  intros H. unfold scoreTransitions.
  rewrite noScoreTransition_filter by exact H. reflexivity.
Qed.

Lemma underway_frame t0 s timestamp d :
  underway t0 s d ->
  underway t0 s (frame timestamp d) /\
  (t0 + DURATION <= timestamp ->
   scoreTransitions (frame timestamp d) = [] /\
   displayScore (frame timestamp d) = s).
Proof.
  intros [[sv H] | [Hnil Hs]].
  - destruct (frame_one_transition timestamp d _ _ _ H) as [Es Et].
    simpl in Es, Et.
    destruct (finished t0 timestamp) eqn:Hfin.
    + assert (Hd : displayScore (frame timestamp d) = s)
        by (rewrite Es; apply blend_done, finished_eased, Hfin).
      split; [right; split; [exact Et | exact Hd]
             | intros _; split; [exact Et | exact Hd]].
    + split; [left; exists sv; exact Et |].
      intros Hlate. rewrite (finished_after _ _ Hlate) in Hfin. discriminate.
  - destruct (frame_keeps_score timestamp d (scoreTransitions_nil d Hnil))
      as [Es Hno].
    pose proof (noScoreTransition_nil _ Hno) as Ht.
    assert (Hd : displayScore (frame timestamp d) = s) by congruence.
    split; [right; split; assumption | intros _; split; assumption].
Qed.

Lemma underway_frames t0 s (timestamps : list Q) :
  forall d, underway t0 s d -> underway t0 s (run d (map Frame timestamps)).
Proof.
  induction timestamps as [| t ts IH]; intros d H; [exact H |].
  simpl. apply IH, underway_frame, H.
Qed.

Lemma frames_keep_no_transition (timestamps : list Q) :
  forall d,
    scoreTransitions d = [] ->
    scoreTransitions (run d (map Frame timestamps)) = [].
Proof.
  induction timestamps as [| t ts IH]; intros d H; [exact H |].
  simpl. apply IH.
  destruct (frame_keeps_score t d (scoreTransitions_nil d H)) as [_ Hno].
  apply noScoreTransition_nil, Hno.
Qed.

Lemma display_run_app (es1 es2 : list Event) (d : Display) :
  run d (es1 ++ es2) = run (run d es1) es2.
Proof. unfold run. apply fold_left_app. Qed.

(** X21.  A transition of the score reaches its target.  After a non-final
    update to score [s], as soon as a frame comes 150 ms or more after the
    first frame of the transition the display shows [s] and no transition
    of the score stays queued, whatever frames came in between; and it
    keeps showing [s] over all later frames. *)
Theorem score_transition_completes (es : list Event) (p : Props) (s : Z)
    (t0 t1 : Q) (between_frames later_frames : list Q) :
  score p = Some s -> isFinalized p = false ->
  scoreDepsChanged p (run mount es) = true ->
  t0 + DURATION <= t1 ->
  displayScore
    (run (run mount es)
       (Render p :: Frame t0 :: map Frame between_frames ++
        Frame t1 :: map Frame later_frames)) = s /\
  scoreTransitions
    (run (run mount es)
       (Render p :: Frame t0 :: map Frame between_frames ++
        Frame t1 :: map Frame later_frames)) = [].
Proof.
  intros Hs Hfin Hdeps Hlate.
  pose proof (update_restarts_score_transition p (run mount es) s
                (tracked_run es mount tracked_mount) Hs Hfin Hdeps) as Hq.
  change (run (run mount es)
            (Render p :: Frame t0 :: map Frame between_frames ++
             Frame t1 :: map Frame later_frames))
    with (run (frame t0 (render p (run mount es)))
            (map Frame between_frames ++ Frame t1 :: map Frame later_frames)).
  set (d0 := render p (run mount es)) in *.
  destruct (frame_one_transition t0 d0 _ _ _ Hq) as [_ Et].
  simpl in Et. rewrite not_finished_at_start in Et.
  assert (H1 : underway t0 s (frame t0 d0)) by (left; eauto).
  rewrite display_run_app.
  apply (underway_frames t0 s between_frames) in H1.
  set (d1 := run (frame t0 d0) (map Frame between_frames)) in *.
  change (run d1 (Frame t1 :: map Frame later_frames))
    with (run (frame t1 d1) (map Frame later_frames)).
  destruct (underway_frame t0 s t1 d1 H1) as [_ Hdone].
  destruct (Hdone Hlate) as [Hnil Hd].
  split.
  - rewrite frames_keep_score by (apply scoreTransitions_nil, Hnil).
    exact Hd.
  - apply frames_keep_no_transition, Hnil.
Qed.

Lemma score_transition_completes_witness :
  displayScore
    (run (run mount [])
       (Render running50 :: Frame 0 :: map Frame [16; 32] ++
        Frame 150 :: map Frame [166])) = 50%Z /\
  scoreTransitions
    (run (run mount [])
       (Render running50 :: Frame 0 :: map Frame [16; 32] ++
        Frame 150 :: map Frame [166])) = [].
Proof.
  apply score_transition_completes.
  - reflexivity.
  - reflexivity.
  - reflexivity.
  - discriminate.
Defined.

Lemma designated_at_most_one (r : option nat)
    (q : list (nat * FrameCallback)) :
  NoDup (map fst q) -> designated r q ->
  (List.length (filter (fun hc => isAnimate (snd hc)) q) <= 1)%nat.
Proof.
  induction q as [| [h cb] q IH]; intros Hnd Hdes; [simpl; lia |].
  inversion Hnd as [| x l Hnotin Hnd']; subst.
  inversion Hdes as [| x l Hh Hdes']; subst.
  simpl in *. destruct (isAnimate cb) eqn:Hcb; [| apply IH; assumption].
  specialize (Hh eq_refl). subst r.
  rewrite noScoreTransition_filter; [simpl; lia |].
  apply Forall_forall. intros [h' cb'] Hin. simpl.
  destruct (isAnimate cb') eqn:Hcb'; [exfalso | reflexivity].
  unfold designated in Hdes'. rewrite Forall_forall in Hdes'.
  specialize (Hdes' (h', cb') Hin Hcb'). simpl in Hdes'.
  injection Hdes' as <-.
  apply Hnotin. apply in_map_iff. exists (h, cb'). auto.
Qed.

(** X22.  The score never has two transitions in flight: in every state
    the display can reach at most one transition of the score is queued,
    and it is the one whose handle [animationFrameRef] holds. *)
Theorem one_score_transition (es : list Event) :
  (List.length (scoreTransitions (run mount es)) <= 1)%nat /\
  (forall cb, In cb (scoreTransitions (run mount es)) ->
     exists h, animationFrameRef (run mount es) = Some h /\
               In (h, cb) (frameQueue (run mount es))).
Proof.
  destruct (tracked_run es mount tracked_mount) as (_ & Hnd & Hdes).
  split.
  - unfold scoreTransitions. rewrite length_map.
    apply (designated_at_most_one _ _ Hnd Hdes).
  - intros cb Hin. unfold scoreTransitions in Hin.
    apply in_map_iff in Hin. destruct Hin as ([h cb'] & <- & Hin).
    apply filter_In in Hin. destruct Hin as [Hin Hcb].
    unfold designated in Hdes. rewrite Forall_forall in Hdes.
    exists h. split; [exact (Hdes _ Hin Hcb) | exact Hin].
Qed.

Lemma one_score_transition_witness :
  exists h,
    animationFrameRef (run mount [Render running50]) = Some h /\
    In (h, animate None 0 50) (frameQueue (run mount [Render running50])).
Proof.
  apply (proj2 (one_score_transition [Render running50])).
  left. reflexivity.
Defined.

(** X23.  Once a final update has been rendered the displayed score is the
    final score, and no later frame overwrites it, whatever happened
    before. *)
Theorem finalized_score_never_overwritten (es : list Event) (p : Props)
    (s : Z) (timestamps : list Q) :
  score p = Some s -> isFinalized p = true ->
  scoreDepsChanged p (run mount es) = true ->
  displayScore (run (run mount es) (Render p :: map Frame timestamps)) = s.
Proof.
  apply final_score_stays.
Qed.

Lemma finalized_score_never_overwritten_witness :
  displayScore
    (run (run mount [Render running50; Frame 0; Frame 16])
       (Render finalized60 :: map Frame [32; 48; 200])) = 60%Z.
Proof.
  apply finalized_score_never_overwritten; reflexivity.
Defined.

(** X24.  A new non-final score cancels the transition of the score in
    flight and starts a fresh one: right after the render the only
    transition of the score queued goes from the value displayed at that
    moment to the new score, and has not started yet. *)
Theorem new_score_restarts_transition (es : list Event) (p : Props) (s : Z) :
  score p = Some s -> isFinalized p = false ->
  scoreDepsChanged p (run mount es) = true ->
  scoreTransitions (run (run mount es) [Render p]) =
    [animate None (currentScoreRef (run mount es)) s].
Proof.
  intros Hs Hfin Hdeps.
  apply (update_restarts_score_transition p (run mount es) s);
    [apply tracked_run, tracked_mount | exact Hs | exact Hfin | exact Hdeps].
Qed.

Lemma new_score_restarts_transition_witness :
  scoreTransitions
    (run (run mount [Render running50; Frame 0; Frame 16])
       [Render running55]) =
  [animate None
     (currentScoreRef (run mount [Render running50; Frame 0; Frame 16])) 55].
Proof.
  apply new_score_restarts_transition; reflexivity.
Defined.

End ScoreTransition.

(** ** The colours of the display *)

Section Colours.
Import ScoreDisplayColors.

Ltac bands :=
  repeat match goal with
         | |- context [(?a <? ?b)%Z] =>
           destruct (Z.ltb_spec a b); cbv iota
         end;
  split; intros Heq; try reflexivity; try discriminate Heq.

(** X25.  The text colour and the bar colour change at the same values:
    two attribute values get the same class from [getAttributeColor]
    exactly when their bars get the same background colour, and two scores
    get the same class from the score colour effect exactly when the score
    bar gets the same background colour for them. *)
Theorem colours_change_together :
  (forall v w : Z,
     getAttributeColor v = getAttributeColor w <->
     attributeBarColor v = attributeBarColor w) /\
  (forall v w : Z,
     scoreColor (Some v) = scoreColor (Some w) <->
     scoreBarColor v = scoreBarColor w).
Proof.
  split; intros v w.
  - unfold getAttributeColor, attributeBarColor. bands.
  - unfold scoreColor, scoreBarColor. bands.
Qed.

End Colours.
